(** * Salaries dashboard (app.py): filtering and aggregation pipeline

    A shallow embedding of the script [app.py]: the column renaming and
    value translation applied to the loaded table, the four sidebar filters,
    the KPI block and the four chart regions.  The script is a straight line
    of pandas calls; every pandas operation it uses is written out below as a
    function on a small table model, and the script's own lines are the
    definitions that keep the script's names ([COL_MAP], [VALUE_MAP],
    [df_filtered], [top_roles], [df_ds], [iso_col], ...).

    Conventions of the model.
    - A table is a header and a list of rows; a row shorter than the header
      reads as missing values on the right, as [read_csv] fills it.
    - A cell is an integer, a string or the missing value NaN.  The numeric
      columns of the dataset (ano, salario, usd) are integer columns.
    - A mean is an exact rational; the rounding to a 64-bit float is not
      modelled.  Where a statement compares means it compares these exact
      means; as long as the sums stay below 2^53 the rounded means are in the
      same order, up to ties.
    - An exception is an [Err] result; the script stops at the first one. *)

From Stdlib Require Import ZArith QArith.
From stdpp Require Import base option list strings gmap sorting.

Local Open Scope string_scope.
Local Open Scope nat_scope.

(** ** Tables *)

Inductive cell :=
| CInt (z : Z)
| CStr (s : string)
| CNaN.

Global Instance cell_eq_dec : EqDecision cell.
Proof. solve_decision. Defined.

Global Instance cell_inhabited : Inhabited cell := populate CNaN.

Record DataFrame := {
  columns : list string;
  rows : list (list cell);
}.

(** The cell in row [i], position [j]. *)
Definition cell_at (df : DataFrame) (i j : nat) : option cell :=
  rows df !! i ≫= (.!! j).

(** ** Exceptions *)

Inductive error :=
| KeyError (k : string)      (* df[k] with no column named k; s[0] on an empty result *)
| TypeError                  (* comparing or averaging values of unrelated types *)
| NotASeries (k : string)    (* df[k] with several columns named k is a table,
                                on which the Series methods of the script fail *)
| ValueError (k : string).   (* a chart asked to plot a column the table lacks *)

Inductive Res (A : Type) :=
| Ok (a : A)
| Err (e : error).
Global Arguments Ok {A} a.
Global Arguments Err {A} e.

Global Instance Res_ret : MRet Res := @Ok.
Global Instance Res_bind : MBind Res := λ A B f m,
  match m with
  | Ok a => f a
  | Err e => Err e
  end.

(** ** Schema normalisation (lines 15-47) *)

Definition COL_MAP : gmap string string := list_to_map [
  ("ano", "year");
  ("senioridade", "seniority");
  ("contrato", "contract_type");
  ("cargo", "role");
  ("salario", "salary");
  ("moeda", "currency");
  ("usd", "usd");
  ("residencia", "country");
  ("residencia_iso3", "country_iso3");
  ("experiencia", "experience");
  ("tamanho_empresa", "company_size");
  ("remoto", "work_model")
].

Definition VALUE_MAP : gmap string string := list_to_map [
  ("executivo", "executive");
  ("junior", "entry level");
  ("pleno", "mid-level");
  ("senior", "senior");
  ("integral", "full time");
  ("parcial", "part time");
  ("contrato", "contract");
  ("remoto", "remote");
  ("hibrido", "hybrid");
  ("presencial", "onsite");
  ("media", "medium");
  ("grande", "large");
  ("pequena", "small")
].

(** [df.rename(columns=m)]: a column whose name is a key of [m] takes the
    mapped name, any other column keeps its name. *)
Definition rename_col (m : gmap string string) (c : string) : string :=
  default c (m !! c).

Definition rename (m : gmap string string) (df : DataFrame) : DataFrame :=
  {| columns := rename_col m <$> columns df; rows := rows df |}.

(** [df.replace(m)] with a flat dictionary: every cell of the table equal to
    a key of [m] becomes the mapped value.  The keys are strings, so integer
    and missing cells never match.  Matches are taken on the original cell,
    a replaced value is not looked up again. *)
Definition replace_cell (m : gmap string string) (c : cell) : cell :=
  match c with
  | CStr s => match m !! s with Some t => CStr t | None => c end
  | _ => c
  end.

Definition replace (m : gmap string string) (df : DataFrame) : DataFrame :=
  {| columns := columns df; rows := (λ r : list cell, replace_cell m <$> r) <$> rows df |}.

(** Lines 29 and 47. *)
Definition normalize (raw : DataFrame) : DataFrame :=
  replace VALUE_MAP (rename COL_MAP raw).

(** The canonical names and labels are the targets of the two dictionaries;
    the source codes are their keys. *)
Definition canonical_names : list string := (map_to_list COL_MAP).*2.
Definition canonical_values : list string := (map_to_list VALUE_MAP).*2.

(** ** The pandas operations the script calls *)

Abbreviation Series := (list cell).

(** Positions of the columns called [name], counted from [i]. *)
Fixpoint positions (name : string) (cols : list string) (i : nat) : list nat :=
  match cols with
  | [] => []
  | c :: cols' =>
      if decide (c = name) then i :: positions name cols' (S i)
      else positions name cols' (S i)
  end.

(** The position of the one column called [name]: [KeyError] when there is
    none. *)
Definition col_index (df : DataFrame) (name : string) : Res nat :=
  match positions name (columns df) 0 with
  | [] => Err (KeyError name)
  | [j] => Ok j
  | _ => Err (NotASeries name)
  end.

(** The value of a row in the column at position [j]. *)
Definition field (j : nat) (r : list cell) : cell := default CNaN (r !! j).

(** [df[name]] *)
Definition getitem (df : DataFrame) (name : string) : Res Series :=
  j ← col_index df name; mret (field j <$> rows df).

(** [df.empty]: no row or no column. *)
Definition empty (df : DataFrame) : bool :=
  bool_decide (rows df = []) || bool_decide (columns df = []).

(** [s.unique()]: the distinct values in order of first appearance. *)
Fixpoint unique (s : Series) : list cell :=
  match s with
  | [] => []
  | x :: s' => x :: filter (λ y, y ≠ x) (unique s')
  end.

Definition is_str (c : cell) : bool :=
  match c with CStr _ => true | _ => false end.

(** The order of values of one type: integers by value, strings by code
    point (strings are UTF-8 bytes, whose order is the order of code points).
    Across types it puts integers before strings and the missing value last,
    which is the order pandas gives to group keys. *)
Definition cell_leb (x y : cell) : bool :=
  match x, y with
  | CInt a, CInt b => bool_decide (a ≤ b)%Z
  | CInt _, _ => true
  | CStr _, CInt _ => false
  | CStr a, CStr b => bool_decide (String.le a b)
  | CStr _, CNaN => true
  | CNaN, CNaN => true
  | CNaN, _ => false
  end.

Definition cell_le (x y : cell) : Prop := cell_leb x y.

Global Instance cell_le_dec : RelDecision cell_le.
Proof. intros x y. unfold cell_le. apply _. Defined.

(** Python's [sorted] and numpy's [sort] on a list of cells: comparing a
    string with a number raises [TypeError].  numpy puts a missing value after
    the numbers.  Python's [sorted] on numbers with a missing value among them
    returns a rearrangement that depends on the comparisons made and need not
    be in order: the model's result is then right about the values it holds
    and not about their order, and order is stated only for lists without a
    missing value. *)
Definition py_sorted (l : list cell) : Res (list cell) :=
  if forallb is_str l || forallb (λ c, negb (is_str c)) l
  then Ok (merge_sort cell_le l)
  else Err TypeError.

(** [s.isin(values)].  A missing value is taken as a member of a list that
    holds the missing value, as pandas 3 does; pandas 2 does not match a
    missing number against the list that line 52 builds.  The properties that
    select by a list holding the missing value are therefore stated for
    columns without missing values, where the versions agree. *)
Definition isin (s : Series) (values : list cell) : list bool :=
  (λ x, bool_decide (x ∈ values)) <$> s.

(** [m1 & m2] on boolean columns of one table. *)
Definition mask_and (m1 m2 : list bool) : list bool := zip_with andb m1 m2.

Fixpoint select_rows (rs : list (list cell)) (mask : list bool) : list (list cell) :=
  match rs, mask with
  | r :: rs', b :: mask' =>
      if b then r :: select_rows rs' mask' else select_rows rs' mask'
  | _, _ => []
  end.

(** [df[mask]] *)
Definition getitem_mask (df : DataFrame) (mask : list bool) : DataFrame :=
  {| columns := columns df; rows := select_rows (rows df) mask |}.

Definition dropna (s : Series) : Series := filter (λ x, x ≠ CNaN) s.

Definition count (x : cell) (s : Series) : nat := length (filter (λ y, y = x) s).

(** The integer values of a column of numbers. *)
Definition ints (s : Series) : list Z :=
  omap (λ c, match c with CInt z => Some z | _ => None end) s.

Definition strs (s : Series) : list string :=
  omap (λ c, match c with CStr z => Some z | _ => None end) s.

Definition has_str (s : Series) : bool := existsb is_str s.

(** The mean of the values present; [None] is NaN. *)
Definition mean_of (zs : list Z) : option Q :=
  match zs with
  | [] => None
  | _ => Some (foldr Z.add 0%Z zs # Pos.of_nat (length zs))
  end.

(** A Python value shown in a KPI cell. *)
Inductive scalar :=
| SInt (z : Z)
| SFloat (q : Q)
| SStr (s : string)
| SNaN.

Definition float (m : option Q) : scalar :=
  match m with Some q => SFloat q | None => SNaN end.

(** [s.mean()]: missing values are skipped; a column holding a string is
    not numeric (pandas 2).  The value is the exact mean; the 64-bit float
    pandas returns is that mean rounded, after a sum that is itself rounded
    once it passes 2^53. *)
Definition series_mean (s : Series) : Res (option Q) :=
  if has_str s then Err TypeError else Ok (mean_of (ints s)).

Definition max_str (a b : string) : string := if String.leb a b then b else a.

(** [s.max()]: missing values are skipped in a column of numbers; a column of
    strings only gives its greatest string; strings mixed with anything else
    cannot be compared. *)
Definition series_max (s : Series) : Res scalar :=
  if has_str s then
    match strs s with
    | a :: l => if forallb is_str s then Ok (SStr (foldr max_str a l)) else Err TypeError
    | [] => Err TypeError
    end
  else
    match ints s with
    | [] => Ok SNaN
    | z :: zs => Ok (SInt (foldr Z.max z zs))
    end.

(** The values of highest frequency among the values present, in order of
    first appearance. *)
Definition modes (s : Series) : list cell :=
  let v := dropna s in
  let u := unique v in
  let m := max_list ((λ x, count x v) <$> u) in
  filter (λ x, count x v = m) u.

(** [s.mode()]: the modes, sorted; left as they are when they cannot be
    compared (pandas warns and goes on). *)
Definition series_mode (s : Series) : list cell :=
  match py_sorted (modes s) with
  | Ok l => l
  | Err _ => modes s
  end.

(** [s[0]] on a result indexed from 0. *)
Definition item0 (l : list cell) : Res cell :=
  match l with
  | x :: _ => Ok x
  | [] => Err (KeyError "0")
  end.

(** The numbers of column [v] in the rows whose value in column [k] is [g]. *)
Definition group_values (k v : Series) (g : cell) : list Z :=
  ints (filter (λ p, p.1 = g) (zip k v)).*2.

(** [df.groupby(key)[val].mean().reset_index()]: one entry per value of
    [key] present, in sorted key order, with the mean of [val] over the rows
    of that key.  Rows whose key is missing belong to no group. *)
Definition groupby_mean (df : DataFrame) (key val : string) : Res (list (cell * option Q)) :=
  k ← getitem df key;
  v ← getitem df val;
  if has_str v then Err TypeError
  else
    mret ((λ g, (g, mean_of (group_values k v g)))
            <$> merge_sort cell_le (unique (dropna k))).

(** A sort that keeps entries of equal rank in the order they came in: each
    entry, from the last to the first, is put in front of the first entry of
    the sorted rest that it may precede. *)
Fixpoint insert_by {A} (R : relation A) `{∀ x y, Decision (R x y)}
    (x : A) (l : list A) : list A :=
  match l with
  | [] => [x]
  | y :: l' => if decide (R x y) then x :: y :: l' else y :: insert_by R x l'
  end.

Definition stable_sort {A} (R : relation A) `{∀ x y, Decision (R x y)}
    (l : list A) : list A :=
  foldr (insert_by R) [] l.

(** Ascending order of means, NaN last. *)
Definition mean_leb (a b : option Q) : bool :=
  match a, b with
  | Some x, Some y => Qle_bool x y
  | _, None => true
  | None, Some _ => false
  end.

(** Descending order of means, NaN last. *)
Definition mean_geb (a b : option Q) : bool :=
  match a, b with
  | Some x, Some y => Qle_bool y x
  | _, None => true
  | None, Some _ => false
  end.

Definition asc (p q : cell * option Q) : Prop := mean_leb p.2 q.2.
Definition desc (p q : cell * option Q) : Prop := mean_geb p.2 q.2.

Global Instance asc_dec : RelDecision asc.
Proof. intros p q. unfold asc. apply _. Defined.

Global Instance desc_dec : RelDecision desc.
Proof. intros p q. unfold desc. apply _. Defined.

(** [s.nlargest(n)], with its default [keep='first']: the [n] entries of
    greatest value, greatest first, entries of equal value in the order they
    have in [s], entries without a value after all others. *)
Definition nlargest (n : nat) (s : list (cell * option Q)) : list (cell * option Q) :=
  take n (stable_sort desc s).

(** [s.sort_values(ascending=True)]: least value first, entries without a
    value last.  pandas does not fix the order of entries of equal value; the
    model keeps them in the order they have in [s]. *)
Definition sort_values (s : list (cell * option Q)) : list (cell * option Q) :=
  stable_sort asc s.

Definition by_count_desc (p q : cell * nat) : Prop := (q.2 ≤ p.2)%nat.

Global Instance by_count_desc_dec : RelDecision by_count_desc.
Proof. intros p q. unfold by_count_desc. apply _. Defined.

(** [s.value_counts().reset_index()]: the values present with their number
    of rows, most frequent first, values of equal frequency in order of first
    appearance. *)
Definition value_counts (s : Series) : list (cell * nat) :=
  let v := dropna s in
  stable_sort by_count_desc ((λ x, (x, count x v)) <$> unique v).

(** ** The script *)

(** *** Sidebar (lines 52-62) *)

(** [sorted(df[name].unique())] *)
Definition available (df : DataFrame) (name : string) : Res (list cell) :=
  s ← getitem df name; py_sorted (unique s).

(** The person at the sidebar: for the label of a multiselect and its
    options, the options left selected.  On the first render every widget
    holds its default, which the script sets to all options. *)
Definition User := string → list cell → list cell.

Definition default_user : User := λ _ options, options.

Record Selection := {
  years_selected : list cell;
  seniority_selected : list cell;
  contracts_selected : list cell;
  sizes_selected : list cell;
}.

Definition sidebar (user : User) (df : DataFrame) : Res Selection :=
  years_available ← available df "year";
  let years_selected := user "Year" years_available in
  seniority_available ← available df "seniority";
  let seniority_selected := user "Seniority" seniority_available in
  contracts_available ← available df "contract_type";
  let contracts_selected := user "Contract Type" contracts_available in
  sizes_available ← available df "company_size";
  let sizes_selected := user "Company Size" sizes_available in
  mret {| years_selected := years_selected;
          seniority_selected := seniority_selected;
          contracts_selected := contracts_selected;
          sizes_selected := sizes_selected |}.

(** *** Filtered table (lines 65-70) *)

Definition df_filtered (df : DataFrame) (sel : Selection) : Res DataFrame :=
  year ← getitem df "year";
  seniority ← getitem df "seniority";
  contract_type ← getitem df "contract_type";
  company_size ← getitem df "company_size";
  mret (getitem_mask df
          (mask_and (mask_and (mask_and (isin year (years_selected sel))
                                        (isin seniority (seniority_selected sel)))
                              (isin contract_type (contracts_selected sel)))
                    (isin company_size (sizes_selected sel)))).

(** *** KPIs (lines 79-87) *)

Record KPIs := {
  avg_salary : scalar;
  max_salary : scalar;
  total_records : nat;
  most_common_role : cell;
}.

Definition kpis (df_filtered : DataFrame) : Res KPIs :=
  if negb (empty df_filtered) then
    usd ← getitem df_filtered "usd";
    avg ← series_mean usd;
    usd' ← getitem df_filtered "usd";
    mx ← series_max usd';
    role ← getitem df_filtered "role";
    top ← item0 (series_mode role);
    mret {| avg_salary := float avg;
            max_salary := mx;
            total_records := length (rows df_filtered);
            most_common_role := top |}
  else
    mret {| avg_salary := SInt 0;
            max_salary := SInt 0;
            total_records := 0;
            most_common_role := CStr EmptyString |}.

(** *** Charts (lines 102-173) *)

(** What a chart region shows: a chart of the data handed to plotly, a
    warning or an informational note. *)
Inductive region (A : Type) :=
| Chart (data : A)
| Warning (msg : string)
| Info (msg : string).
Global Arguments Chart {A} data.
Global Arguments Warning {A} msg.
Global Arguments Info {A} msg.

(** Lines 104-107. *)
Definition top_roles (df_filtered : DataFrame) : Res (list (cell * option Q)) :=
  g ← groupby_mean df_filtered "role" "usd";
  mret (sort_values (nlargest 10 g)).

Definition roles_region (df_filtered : DataFrame) : Res (region (list (cell * option Q))) :=
  if negb (empty df_filtered) then
    t ← top_roles df_filtered; mret (Chart t)
  else mret (Warning "No data available for roles.").

(** The column a plotly chart is told to draw. *)
Definition px_column (df : DataFrame) (name : string) : Res Series :=
  match getitem df name with
  | Ok s => Ok s
  | Err _ => Err (ValueError name)
  end.

(** Lines 122-133; the binning into 30 bins is done by plotly. *)
Definition hist_region (df_filtered : DataFrame) : Res (region Series) :=
  if negb (empty df_filtered) then
    x ← px_column df_filtered "usd"; mret (Chart x)
  else mret (Warning "No data available for salary distribution.").

(** Lines 138-152. *)
Definition pie_region (df_filtered : DataFrame) : Res (region (list (cell * nat))) :=
  if negb (empty df_filtered) then
    wm ← getitem df_filtered "work_model"; mret (Chart (value_counts wm))
  else mret (Warning "No data available for work model.").

(** Line 156. *)
Definition df_ds (df_filtered : DataFrame) : Res DataFrame :=
  role ← getitem df_filtered "role";
  mret (getitem_mask df_filtered
          ((λ x, bool_decide (x = CStr "Data Scientist")) <$> role)).

(** Line 159. *)
Definition iso_col (df_ds : DataFrame) : string :=
  if bool_decide ("country_iso3" ∈ columns df_ds) then "country_iso3"
  else "residencia_iso3".

(** Lines 155-173. *)
Definition map_region (df_filtered : DataFrame) : Res (region (list (cell * option Q))) :=
  if negb (empty df_filtered) then
    ds ← df_ds df_filtered;
    if negb (empty ds) then
      g ← groupby_mean ds (iso_col ds) "usd"; mret (Chart g)
    else mret (Info "No Data Scientist records in the current filter.")
  else mret (Warning "No data available for countries.").

(** *** The page *)

Record Dashboard := {
  metrics : KPIs;
  roles_chart : region (list (cell * option Q));
  salary_chart : region Series;
  work_model_chart : region (list (cell * nat));
  country_chart : region (list (cell * option Q));
  detailed_data : DataFrame;
}.

(** One run of the script on the table read from the CSV. *)
Definition app (raw : DataFrame) (user : User) : Res Dashboard :=
  let df := normalize raw in
  sel ← sidebar user df;
  view ← df_filtered df sel;
  k ← kpis view;
  c1 ← roles_region view;
  c2 ← hist_region view;
  c3 ← pie_region view;
  c4 ← map_region view;
  mret {| metrics := k; roles_chart := c1; salary_chart := c2;
          work_model_chart := c3; country_chart := c4;
          detailed_data := view |}.

(** ** Vocabulary of the properties *)

(** A cell holds a source code when it is a key of [VALUE_MAP] that is not
    one of the canonical labels. *)
Definition source_code (x : cell) : Prop :=
  match x with
  | CStr s => is_Some (VALUE_MAP !! s) ∧ s ∉ canonical_values
  | _ => False
  end.

Global Instance source_code_dec (x : cell) : Decision (source_code x).
Proof. destruct x; simpl; apply _. Defined.

(** A table is in canonical form when every column name is a canonical name
    and no cell holds a source code. *)
Definition canonical (t : DataFrame) : Prop :=
  Forall (λ c, c ∈ canonical_names) (columns t)
  ∧ Forall (Forall (λ x, ¬ source_code x)) (rows t).

Global Instance canonical_dec (t : DataFrame) : Decision (canonical t).
Proof. unfold canonical. apply _. Defined.

(** A row passes when each of its four filtered values is selected. *)
Definition passes (jy js jc jz : nat) (sel : Selection) (r : list cell) : Prop :=
  field jy r ∈ years_selected sel ∧ field js r ∈ seniority_selected sel
  ∧ field jc r ∈ contracts_selected sel ∧ field jz r ∈ sizes_selected sel.

Global Instance passes_dec jy js jc jz sel r : Decision (passes jy js jc jz sel r).
Proof. unfold passes. apply _. Defined.

(** A cell of a text column: a string or the missing value. *)
Definition text (x : cell) : Prop :=
  match x with CInt _ => False | _ => True end.

Global Instance text_dec (x : cell) : Decision (text x).
Proof. destruct x; simpl; apply _. Defined.

(** The position of the first row holding [x]. *)
Definition first_occurrence (x : cell) (s : Series) : option nat :=
  fst <$> list_find (λ y, y = x) s.

(** The tie-break by first occurrence: no value as frequent as [r] occurs
    before [r]. *)
Definition first_among_ties (s : Series) (r : cell) : Prop :=
  ∀ y i j, count y s = count r s →
           first_occurrence r s = Some i → first_occurrence y s = Some j →
           i ≤ j.

(** ** Sample tables *)

Definition header_pt : list string :=
  ["ano"; "senioridade"; "contrato"; "cargo"; "salario"; "moeda"; "usd";
   "residencia"; "residencia_iso3"; "remoto"; "tamanho_empresa"].

Definition sample_raw : DataFrame :=
  {| columns := header_pt;
     rows := [
       [CInt 2023; CStr "senior"; CStr "integral"; CStr "Data Scientist";
        CInt 100; CStr "USD"; CInt 100; CStr "US"; CStr "USA"; CStr "remoto"; CStr "media"];
       [CInt 2024; CStr "junior"; CStr "integral"; CStr "Data Engineer";
        CInt 200; CStr "USD"; CInt 200; CStr "BR"; CStr "BRA"; CStr "presencial"; CStr "grande"];
       [CInt 2024; CStr "pleno"; CStr "contrato"; CStr "Analyst";
        CInt 300; CStr "USD"; CInt 300; CStr "BR"; CStr "BRA"; CStr "hibrido"; CStr "pequena"]
     ] |}.

(** A table already in English in which a job title and a country happen to
    be spelled like source codes. *)
Definition sample_titles : DataFrame :=
  {| columns := ["year"; "role"; "country"];
     rows := [ [CInt 2023; CStr "junior"; CStr "contrato"];
               [CInt 2024; CStr "Analyst"; CStr "BR"] ] |}.

(** The sample table once normalised. *)
Definition sample_df : DataFrame := Eval vm_compute in normalize sample_raw.

(** The sample without its year column. *)
Definition sample_raw_no_year : DataFrame :=
  {| columns := drop 1 header_pt; rows := drop 1 <$> rows sample_raw |}.

(** The sample without its job title column. *)
Definition sample_raw_no_role : DataFrame :=
  {| columns := (take 3 header_pt ++ drop 4 header_pt)%list;
     rows := (λ r : list cell, (take 3 r ++ drop 4 r)%list) <$> rows sample_raw |}.

(** The sample without its ISO country code column. *)
Definition sample_raw_no_iso : DataFrame :=
  {| columns := (take 8 header_pt ++ drop 9 header_pt)%list;
     rows := (λ r : list cell, (take 8 r ++ drop 9 r)%list) <$> rows sample_raw |}.

(** The normalised sample with its ISO column under the source name. *)
Definition sample_view_iso_pt : DataFrame :=
  {| columns := <[8 := "residencia_iso3"]> (columns sample_df);
     rows := rows sample_df |}.

(** Someone who clears the year filter and leaves the others alone. *)
Definition user_no_year : User :=
  λ label options, if decide (label = "Year") then [] else options.

Definition sample_sel : Selection :=
  {| years_selected := [CInt 2024];
     seniority_selected := [CStr "entry level"; CStr "mid-level"; CStr "senior"];
     contracts_selected := [CStr "full time"];
     sizes_selected := [CStr "large"; CStr "medium"; CStr "small"] |}.

Definition sample_sel_all : Selection :=
  {| years_selected := [CInt 2023; CInt 2024];
     seniority_selected := [CStr "entry level"; CStr "mid-level"; CStr "senior"];
     contracts_selected := [CStr "contract"; CStr "full time"];
     sizes_selected := [CStr "large"; CStr "medium"; CStr "small"] |}.

(** A selection whose company size occurs nowhere in the sample. *)
Definition sample_sel_absent : Selection :=
  {| years_selected := [CInt 2023; CInt 2024];
     seniority_selected := [CStr "entry level"; CStr "mid-level"; CStr "senior"];
     contracts_selected := [CStr "contract"; CStr "full time"];
     sizes_selected := [CStr "huge"] |}.

Definition sample_view_empty : DataFrame :=
  {| columns := columns sample_df; rows := [] |}.

(** The sample restricted to 2024: two rows, none of a Data Scientist. *)
Definition sample_view_2024 : DataFrame :=
  {| columns := columns sample_df; rows := drop 1 (rows sample_df) |}.

(** Two roles, each once; the later one comes first in string order. *)
Definition sample_tie : DataFrame :=
  {| columns := ["role"; "usd"];
     rows := [ [CStr "Data Engineer"; CInt 100];
               [CStr "Analyst"; CInt 200] ] |}.

(** Three records, two of role A and one of role B. *)
Definition sample_ab : DataFrame :=
  {| columns := ["role"; "usd"];
     rows := [ [CStr "A"; CInt 100]; [CStr "A"; CInt 200]; [CStr "B"; CInt 300] ] |}.

(** The selection that keeps, in each dimension, the values of [s1] that
    [s2] selects too. *)
Definition sel_inter (s1 s2 : Selection) : Selection :=
  {| years_selected := filter (λ x, x ∈ years_selected s2) (years_selected s1);
     seniority_selected :=
       filter (λ x, x ∈ seniority_selected s2) (seniority_selected s1);
     contracts_selected :=
       filter (λ x, x ∈ contracts_selected s2) (contracts_selected s1);
     sizes_selected := filter (λ x, x ∈ sizes_selected s2) (sizes_selected s1) |}.

(** [s1] selects no more than [s2] in every dimension. *)
Definition sel_included (s1 s2 : Selection) : Prop :=
  years_selected s1 ⊆ years_selected s2
  ∧ seniority_selected s1 ⊆ seniority_selected s2
  ∧ contracts_selected s1 ⊆ contracts_selected s2
  ∧ sizes_selected s1 ⊆ sizes_selected s2.

(** A selection with some dimension left without any value. *)
Definition sel_has_empty (sel : Selection) : Prop :=
  years_selected sel = [] ∨ seniority_selected sel = []
  ∨ contracts_selected sel = [] ∨ sizes_selected sel = [].

(** The sample with one seniority missing. *)
Definition sample_df_gap : DataFrame :=
  {| columns := columns sample_df;
     rows := match rows sample_df with
             | r :: rs => <[1 := CNaN]> r :: rs
             | [] => []
             end |}.

(** The sample with a second year column under the English name. *)
Definition sample_raw_two_years : DataFrame :=
  {| columns := (header_pt ++ ["year"])%list;
     rows := (λ r : list cell, (r ++ [CInt 2020])%list) <$> rows sample_raw |}.

(** The rows of a table whose role, at position [jr], is "Data Scientist",
    under the columns of the table. *)
Definition data_scientists (jr : nat) (view : DataFrame) : DataFrame :=
  {| columns := columns view;
     rows := filter (λ r, field jr r = CStr "Data Scientist") (rows view) |}.

(** Two records whose salary in USD is missing. *)
Definition sample_usd_missing : DataFrame :=
  {| columns := ["role"; "usd"];
     rows := [ [CStr "A"; CNaN]; [CStr "B"; CNaN] ] |}.

(** Two records whose role is missing. *)
Definition sample_role_missing : DataFrame :=
  {| columns := ["role"; "usd"];
     rows := [ [CNaN; CInt 100]; [CNaN; CInt 200] ] |}.

Global Instance Q_eq_dec : EqDecision Q.
Proof. solve_decision. Defined.

(** The four columns the sidebar filters on. *)
Definition filter_columns : list string :=
  ["year"; "seniority"; "contract_type"; "company_size"].

(** No value is missing in any of the filter columns of the table. *)
Definition no_missing_filter_values (df : DataFrame) : Prop :=
  ∀ name s, name ∈ filter_columns → getitem df name = Ok s → CNaN ∉ s.

(** Thirteen records of twelve roles; "Role A" has two. *)
Definition sample_roles12_role : Series :=
  [CStr "Role A"; CStr "Role B"; CStr "Role C"; CStr "Role D"; CStr "Role E"; CStr "Role F";
   CStr "Role G"; CStr "Role H"; CStr "Role I"; CStr "Role J"; CStr "Role K"; CStr "Role L"; CStr "Role A"].

Definition sample_roles12_usd : Series :=
  [CInt 100; CInt 150; CInt 300; CInt 400; CInt 500; CInt 600;
   CInt 700; CInt 800; CInt 900; CInt 1000; CInt 1100; CInt 1200; CInt 300].

Definition sample_roles12 : DataFrame :=
  {| columns := ["role"; "usd"];
     rows := zip_with (λ r u, [r; u]) sample_roles12_role sample_roles12_usd |}.

(** * Properties *)

(** ** The two dictionaries *)

Lemma COL_MAP_lookup (c t : string) :
  COL_MAP !! c = Some t →
  (c, t) ∈ [("ano", "year"); ("senioridade", "seniority");
            ("contrato", "contract_type"); ("cargo", "role");
            ("salario", "salary"); ("moeda", "currency"); ("usd", "usd");
            ("residencia", "country"); ("residencia_iso3", "country_iso3");
            ("experiencia", "experience"); ("tamanho_empresa", "company_size");
            ("remoto", "work_model")].
Proof. intros H. by apply elem_of_list_to_map_2 in H. Qed.

Lemma VALUE_MAP_lookup (k t : string) :
  VALUE_MAP !! k = Some t →
  (k, t) ∈ [("executivo", "executive"); ("junior", "entry level");
            ("pleno", "mid-level"); ("senior", "senior");
            ("integral", "full time"); ("parcial", "part time");
            ("contrato", "contract"); ("remoto", "remote");
            ("hibrido", "hybrid"); ("presencial", "onsite");
            ("media", "medium"); ("grande", "large"); ("pequena", "small")].
Proof. intros H. by apply elem_of_list_to_map_2 in H. Qed.

(** Splits a membership in a literal list into its cases. *)
Ltac cases_of H :=
  repeat (apply elem_of_cons in H as [H | H]);
  [ .. | by apply elem_of_nil in H ].

Lemma replace_cell_key (m : gmap string string) (s t : string) :
  m !! s = Some t → replace_cell m (CStr s) = CStr t.
Proof. intros H. simpl. by rewrite H. Qed.

Lemma replace_cell_other (m : gmap string string) (s : string) :
  m !! s = None → replace_cell m (CStr s) = CStr s.
Proof. intros H. simpl. by rewrite H. Qed.

(** A canonical column name is renamed to itself. *)
Lemma rename_col_target (c t : string) :
  COL_MAP !! c = Some t → rename_col COL_MAP t = t.
Proof.
  intros H%COL_MAP_lookup. cases_of H; injection H as -> ->; by vm_compute.
Qed.

(** A canonical label is replaced by itself. *)
Lemma replace_cell_target (k t : string) :
  VALUE_MAP !! k = Some t → replace_cell VALUE_MAP (CStr t) = CStr t.
Proof.
  intros H%VALUE_MAP_lookup. cases_of H; injection H as -> ->; by vm_compute.
Qed.

Lemma rename_col_idemp (c : string) :
  rename_col COL_MAP (rename_col COL_MAP c) = rename_col COL_MAP c.
Proof.
  unfold rename_col at 2 3. destruct (COL_MAP !! c) as [t|] eqn:E; simpl.
  - by eapply rename_col_target.
  - unfold rename_col. by rewrite E.
Qed.

Lemma replace_cell_idemp (x : cell) :
  replace_cell VALUE_MAP (replace_cell VALUE_MAP x) = replace_cell VALUE_MAP x.
Proof.
  destruct x as [z|s|]; try done.
  destruct (VALUE_MAP !! s) as [t|] eqn:E.
  - rewrite (replace_cell_key _ _ _ E). by eapply replace_cell_target.
  - by rewrite !(replace_cell_other _ _ E).
Qed.

(** ** Normalisation *)

Lemma columns_normalize (raw : DataFrame) :
  columns (normalize raw) = rename_col COL_MAP <$> columns raw.
Proof. done. Qed.

Lemma rows_normalize (raw : DataFrame) :
  rows (normalize raw) = (λ r : list cell, replace_cell VALUE_MAP <$> r) <$> rows raw.
Proof. done. Qed.

(** Cell by cell, the normalised table is the source table translated. *)
Lemma cell_at_normalize (raw : DataFrame) (i j : nat) :
  cell_at (normalize raw) i j = replace_cell VALUE_MAP <$> cell_at raw i j.
Proof.
  unfold cell_at. rewrite rows_normalize, list_lookup_fmap.
  destruct (rows raw !! i) as [r|]; simpl; [|done].
  by rewrite list_lookup_fmap.
Qed.

(** X1: normalising twice is normalising once, for every table (lines 29
    and 47 applied again to their own result). *)
Lemma normalize_idemp (raw : DataFrame) :
  normalize (normalize raw) = normalize raw.
Proof.
  destruct raw as [cols rs]. unfold normalize, replace, rename; simpl. f_equal.
  - rewrite <- list_fmap_compose. apply list_fmap_ext.
    intros _ c _. apply rename_col_idemp.
  - rewrite <- list_fmap_compose. apply list_fmap_ext.
    intros _ r _. simpl. rewrite <- list_fmap_compose. apply list_fmap_ext.
    intros _ x _. apply replace_cell_idemp.
Qed.

(** C1: the value translation is table-wide.  Whatever the position [j] of a
    cell in its row, hence whatever its column: a cell equal to a key of
    [VALUE_MAP] holds that key's target in the normalised table, and a cell
    equal to no key is unchanged. *)
Theorem replace_table_wide (raw : DataFrame) (i j : nat) (x : cell) :
  cell_at raw i j = Some x →
  (∀ k t, x = CStr k → VALUE_MAP !! k = Some t →
          cell_at (normalize raw) i j = Some (CStr t))
  ∧ ((∀ k, x = CStr k → VALUE_MAP !! k = None) →
     cell_at (normalize raw) i j = Some x).
Proof.
  intros Hx. rewrite cell_at_normalize, Hx. split.
  - intros k t -> Hk. cbn [fmap option_fmap option_map]. by rewrite (replace_cell_key _ _ _ Hk).
  - intros Hno. destruct x as [z|s|]; try done.
    cbn [fmap option_fmap option_map]. by rewrite (replace_cell_other _ _ (Hno s eq_refl)).
Qed.

(** A job title spelled "junior" is translated like a seniority code. *)
Lemma replace_table_wide_witness :
  cell_at sample_titles 0 1 = Some (CStr "junior")
  ∧ cell_at (normalize sample_titles) 0 1 = Some (CStr "entry level").
Proof.
  split; [reflexivity|].
  apply (proj1 (replace_table_wide sample_titles 0 1 (CStr "junior") eq_refl)
               "junior" "entry level"); reflexivity.
Defined.

Lemma rename_col_canonical (c : string) :
  c ∈ canonical_names → rename_col COL_MAP c = c.
Proof.
  intros H. vm_compute in H. cases_of H; subst c; by vm_compute.
Qed.

Lemma replace_cell_canonical (s : string) :
  s ∈ canonical_values → replace_cell VALUE_MAP (CStr s) = CStr s.
Proof.
  intros H. vm_compute in H. cases_of H; subst s; by vm_compute.
Qed.

(** C9: normalising a table already in canonical form changes nothing. *)
Theorem normalize_canonical (t : DataFrame) :
  canonical t → normalize t = t.
Proof.
  destruct t as [cols rs]. intros [Hc Hr]; simpl in *.
  unfold normalize, replace, rename; simpl. f_equal.
  - rewrite <- (list_fmap_id cols) at 2. apply Forall_fmap_ext_1.
    eapply Forall_impl; [exact Hc|]. intros c Hin. by apply rename_col_canonical.
  - rewrite <- (list_fmap_id rs) at 2. apply Forall_fmap_ext_1.
    eapply Forall_impl; [exact Hr|]. intros r Hrow. simpl.
    rewrite <- (list_fmap_id r) at 2. apply Forall_fmap_ext_1.
    eapply Forall_impl; [exact Hrow|]. intros x Hx. simpl.
    destruct x as [z|s|]; try done.
    destruct (VALUE_MAP !! s) as [u|] eqn:E.
    + apply replace_cell_canonical. destruct (decide (s ∈ canonical_values)); [done|].
      destruct Hx. split; [by rewrite E | done].
    + by apply replace_cell_other.
Qed.

Lemma normalize_canonical_witness :
  canonical sample_df ∧ normalize sample_df = sample_df.
Proof.
  assert (canonical sample_df) as H by (apply (bool_decide_unpack _); by vm_compute).
  split; [exact H | exact (normalize_canonical sample_df H)].
Defined.

(** ** Column access *)

Lemma positions_nil_iff (name : string) (cols : list string) (i : nat) :
  positions name cols i = [] ↔ name ∉ cols.
Proof.
  revert i. induction cols as [|c cols IH]; intros i; simpl.
  - split; [intros _; apply not_elem_of_nil | done].
  - rewrite not_elem_of_cons. destruct (decide (c = name)) as [->|Hne].
    + split; [done | by intros [? _]].
    + rewrite IH. split; [done | by intros [_ ?]].
Qed.

(** [df[name]] raises [KeyError(name)] exactly when no column is called
    [name]. *)
Lemma col_index_KeyError (df : DataFrame) (name : string) :
  name ∉ columns df ↔ col_index df name = Err (KeyError name).
Proof.
  rewrite <- (positions_nil_iff name (columns df) 0). unfold col_index.
  destruct (positions name (columns df) 0) as [|j [|j' l]]; split; congruence.
Qed.

Lemma getitem_KeyError (df : DataFrame) (name : string) :
  name ∉ columns df → getitem df name = Err (KeyError name).
Proof.
  intros H%col_index_KeyError. unfold getitem. by rewrite H.
Qed.

Lemma getitem_Ok (df : DataFrame) (name : string) (j : nat) :
  col_index df name = Ok j → getitem df name = Ok (field j <$> rows df).
Proof. intros H. unfold getitem. by rewrite H. Qed.

Lemma getitem_Ok_inv (df : DataFrame) (name : string) (s : Series) :
  getitem df name = Ok s →
  ∃ j, col_index df name = Ok j ∧ s = field j <$> rows df.
Proof.
  unfold getitem. destruct (col_index df name) as [j|e]; [|done].
  intros [= <-]. by exists j.
Qed.

(** ** Row selection *)

Lemma select_rows_fmap (f : list cell → bool) (rs : list (list cell)) :
  select_rows rs (f <$> rs) = filter (λ r, f r) rs.
Proof.
  induction rs as [|r rs IH]; [done|].
  rewrite fmap_cons, filter_cons. cbn [select_rows]. rewrite IH.
  destruct (f r); [by rewrite decide_True|].
  rewrite decide_False; [done | by intros []].
Qed.

Lemma mask_and_fmap (f g : list cell → bool) (rs : list (list cell)) :
  mask_and (f <$> rs) (g <$> rs) = (λ r, f r && g r) <$> rs.
Proof. induction rs as [|r rs IH]; [done|]. simpl. by f_equal. Qed.

Lemma isin_fmap (j : nat) (values : list cell) (rs : list (list cell)) :
  isin (field j <$> rs) values = (λ r, bool_decide (field j r ∈ values)) <$> rs.
Proof. unfold isin. by rewrite <- list_fmap_compose. Qed.

Lemma filter_sublist {A} (P : A → Prop) `{∀ x, Decision (P x)} (l : list A) :
  filter P l `sublist_of` l.
Proof.
  induction l as [|x l IH]; [done|]. rewrite filter_cons.
  destruct (decide (P x)); by constructor.
Qed.

Lemma filter_all {A} (P : A → Prop) `{∀ x, Decision (P x)} (l : list A) :
  Forall P l → filter P l = l.
Proof.
  induction 1 as [|x l Hx _ IH]; [done|].
  rewrite filter_cons, decide_True by done. by f_equal.
Qed.

(** ** The filter *)

(** The four filter columns sit at positions [jy], [js], [jc], [jz]. *)
Section Filter.
Context (df : DataFrame) (jy js jc jz : nat).
Hypothesis Hy : col_index df "year" = Ok jy.
Hypothesis Hs : col_index df "seniority" = Ok js.
Hypothesis Hc : col_index df "contract_type" = Ok jc.
Hypothesis Hz : col_index df "company_size" = Ok jz.

Lemma df_filtered_Ok (sel : Selection) :
  df_filtered df sel =
    Ok {| columns := columns df;
          rows := filter (passes jy js jc jz sel) (rows df) |}.
Proof using Hy Hs Hc Hz.
  unfold df_filtered.
  rewrite (getitem_Ok _ _ _ Hy), (getitem_Ok _ _ _ Hs),
    (getitem_Ok _ _ _ Hc), (getitem_Ok _ _ _ Hz).
  cbn [mbind Res_bind mret Res_ret]. unfold getitem_mask. do 2 f_equal.
  rewrite !isin_fmap, !mask_and_fmap, select_rows_fmap.
  apply list_filter_iff. intros r. unfold passes.
  rewrite !andb_True, !bool_decide_spec. tauto.
Qed.

(** C2: the filtered table has the columns of the table, its rows are a
    sub-list of the table's rows, and a row is kept exactly when its value in
    each of the four dimensions is a member of the selection for that
    dimension. *)
Theorem df_filtered_conjunction (sel : Selection) :
  ∃ view,
    df_filtered df sel = Ok view
    ∧ columns view = columns df
    ∧ rows view `sublist_of` rows df
    ∧ rows view = filter (passes jy js jc jz sel) (rows df)
    ∧ ∀ r, r ∈ rows view ↔
           r ∈ rows df
           ∧ field jy r ∈ years_selected sel
           ∧ field js r ∈ seniority_selected sel
           ∧ field jc r ∈ contracts_selected sel
           ∧ field jz r ∈ sizes_selected sel.
Proof using Hy Hs Hc Hz.
  eexists. split; [by apply df_filtered_Ok|]. simpl.
  split; [done|]. split; [apply filter_sublist|]. split; [done|].
  intros r. rewrite list_elem_of_filter. unfold passes. tauto.
Qed.

(** The filter keeps every row when every row passes. *)
Lemma df_filtered_all (sel : Selection) :
  Forall (passes jy js jc jz sel) (rows df) → df_filtered df sel = Ok df.
Proof using Hy Hs Hc Hz.
  intros Hall. rewrite df_filtered_Ok.
  destruct df as [cols rs]. simpl in *. do 2 f_equal. by apply filter_all.
Qed.

End Filter.

Lemma df_filtered_conjunction_witness :
  ∃ view,
    df_filtered sample_df sample_sel = Ok view
    ∧ columns view = columns sample_df
    ∧ rows view `sublist_of` rows sample_df
    ∧ rows view = filter (passes 0 1 2 10 sample_sel) (rows sample_df)
    ∧ ∀ r, r ∈ rows view ↔
           r ∈ rows sample_df
           ∧ field 0 r ∈ years_selected sample_sel
           ∧ field 1 r ∈ seniority_selected sample_sel
           ∧ field 2 r ∈ contracts_selected sample_sel
           ∧ field 10 r ∈ sizes_selected sample_sel.
Proof.
  apply (df_filtered_conjunction sample_df 0 1 2 10); reflexivity.
Defined.

(** ** Orders and sorting *)

Global Instance cell_le_total : Total cell_le.
Proof.
  intros [a|a|] [b|b|]; unfold cell_le; simpl;
    rewrite ?bool_decide_spec; try (by left); try (by right).
  - destruct (Z.le_gt_cases a b); [by left | right; lia].
  - apply (total String.le).
Qed.

Global Instance cell_le_trans : Transitive cell_le.
Proof.
  intros [a|a|] [b|b|] [c|c|]; unfold cell_le; simpl;
    rewrite ?bool_decide_spec; try done.
  - lia.
  - apply (transitivity (R:=String.le)).
Qed.

Lemma elem_of_unique (x : cell) (s : Series) : x ∈ unique s ↔ x ∈ s.
Proof.
  induction s as [|y s IH]; [done|]. simpl.
  rewrite !elem_of_cons, list_elem_of_filter, IH.
  destruct (decide (x = y)); tauto.
Qed.

Lemma NoDup_unique (s : Series) : NoDup (unique s).
Proof.
  induction s as [|y s IH]; simpl; constructor.
  - rewrite list_elem_of_filter. tauto.
  - by apply NoDup_filter.
Qed.

Lemma elem_of_merge_sort {A} (R : relation A) `{∀ x y, Decision (R x y)}
    (x : A) (l : list A) :
  x ∈ merge_sort R l ↔ x ∈ l.
Proof. by rewrite merge_sort_Permutation. Qed.

Lemma length_merge_sort {A} (R : relation A) `{∀ x y, Decision (R x y)} (l : list A) :
  length (merge_sort R l) = length l.
Proof. by rewrite merge_sort_Permutation. Qed.

Lemma insert_by_Permutation {A} (R : relation A) `{∀ x y, Decision (R x y)}
    (x : A) (l : list A) :
  insert_by R x l ≡ₚ x :: l.
Proof.
  induction l as [|y l IH]; [done|]. simpl.
  destruct (decide (R x y)); [done|]. rewrite IH. apply Permutation_swap.
Qed.

Lemma stable_sort_Permutation {A} (R : relation A) `{∀ x y, Decision (R x y)}
    (l : list A) :
  stable_sort R l ≡ₚ l.
Proof.
  induction l as [|x l IH]; [done|].
  unfold stable_sort in *. cbn [foldr]. by rewrite insert_by_Permutation, IH.
Qed.

Lemma elem_of_stable_sort {A} (R : relation A) `{∀ x y, Decision (R x y)}
    (x : A) (l : list A) :
  x ∈ stable_sort R l ↔ x ∈ l.
Proof. by rewrite stable_sort_Permutation. Qed.

Lemma length_stable_sort {A} (R : relation A) `{∀ x y, Decision (R x y)}
    (l : list A) :
  length (stable_sort R l) = length l.
Proof. by rewrite stable_sort_Permutation. Qed.

Lemma StronglySorted_insert_by {A} (R : relation A) `{∀ x y, Decision (R x y)}
    `{!Transitive R, !Total R} (x : A) (l : list A) :
  StronglySorted R l → StronglySorted R (insert_by R x l).
Proof.
  induction 1 as [|y l Hl IH Hy]; simpl.
  - repeat constructor.
  - destruct (decide (R x y)) as [Hxy|Hxy].
    + constructor; [by constructor|]. constructor; [done|].
      eapply Forall_impl; [exact Hy|]. intros z Hz. by etrans.
    + constructor; [done|].
      rewrite insert_by_Permutation. constructor; [|done].
      by destruct (total R x y).
Qed.

Lemma StronglySorted_stable_sort {A} (R : relation A) `{∀ x y, Decision (R x y)}
    `{!Transitive R, !Total R} (l : list A) :
  StronglySorted R (stable_sort R l).
Proof.
  induction l as [|x l IH]; [constructor|].
  unfold stable_sort in *. cbn [foldr]. by apply StronglySorted_insert_by.
Qed.

(** [sorted] rearranges its argument when it returns. *)
Lemma py_sorted_Permutation (l l' : list cell) :
  py_sorted l = Ok l' → l' ≡ₚ l.
Proof.
  unfold py_sorted. destruct (_ || _); [|done].
  intros [= <-]. apply merge_sort_Permutation.
Qed.

Lemma available_elem_of (df : DataFrame) (name : string) (j : nat) (l : list cell) :
  col_index df name = Ok j → available df name = Ok l →
  ∀ r, r ∈ rows df → field j r ∈ l.
Proof.
  intros Hj. unfold available. rewrite (getitem_Ok _ _ _ Hj).
  cbn [mbind Res_bind]. intros Hl%py_sorted_Permutation r Hr.
  rewrite Hl, elem_of_unique. by apply list_elem_of_fmap_2.
Qed.

Lemma available_Ok_inv (df : DataFrame) (name : string) (l : list cell) :
  available df name = Ok l → ∃ j, col_index df name = Ok j.
Proof.
  unfold available, getitem. destruct (col_index df name) as [j|e]; [|done].
  by exists j.
Qed.

Lemma getitem_elem_of_unique (df : DataFrame) (name : string) (j : nat) (s : Series) :
  col_index df name = Ok j → getitem df name = Ok s →
  ∀ r, r ∈ rows df → field j r ∈ unique s.
Proof.
  intros Hj. rewrite (getitem_Ok _ _ _ Hj). intros [= <-] r Hr.
  rewrite elem_of_unique. by apply list_elem_of_fmap_2.
Qed.

(** C8: in a table whose four filter columns hold no missing value, when the
    selection of each of the four dimensions is the list of the distinct
    values of that column of the table, in any order, the filtered table is
    the table. *)
Theorem df_filtered_universe (df : DataFrame) (sel : Selection)
    (year seniority contract_type company_size : Series) :
  getitem df "year" = Ok year →
  getitem df "seniority" = Ok seniority →
  getitem df "contract_type" = Ok contract_type →
  getitem df "company_size" = Ok company_size →
  CNaN ∉ year → CNaN ∉ seniority →
  CNaN ∉ contract_type → CNaN ∉ company_size →
  years_selected sel ≡ₚ unique year →
  seniority_selected sel ≡ₚ unique seniority →
  contracts_selected sel ≡ₚ unique contract_type →
  sizes_selected sel ≡ₚ unique company_size →
  df_filtered df sel = Ok df.
Proof.
  intros Gy Gs Gc Gz _ _ _ _ Py Ps Pc Pz.
  destruct (getitem_Ok_inv _ _ _ Gy) as (jy & Hy & _).
  destruct (getitem_Ok_inv _ _ _ Gs) as (js & Hs & _).
  destruct (getitem_Ok_inv _ _ _ Gc) as (jc & Hc & _).
  destruct (getitem_Ok_inv _ _ _ Gz) as (jz & Hz & _).
  apply (df_filtered_all _ _ _ _ _ Hy Hs Hc Hz), Forall_forall.
  intros r Hr. unfold passes. rewrite Py, Ps, Pc, Pz.
  repeat split; eapply getitem_elem_of_unique; eauto.
Qed.

Lemma df_filtered_universe_witness :
  sidebar default_user sample_df = Ok sample_sel_all
  ∧ df_filtered sample_df sample_sel_all = Ok sample_df.
Proof.
  split; [reflexivity|].
  eapply (df_filtered_universe sample_df sample_sel_all); try reflexivity;
    apply (bool_decide_unpack _); by vm_compute.
Defined.

(** The same on the script's first render: the options of each widget are
    the sorted distinct values of its column and all of them are selected.
    For a column with a missing value this rests on the reading of [isin]
    noted at its definition. *)
Lemma df_filtered_default (df : DataFrame) (sel : Selection) :
  sidebar default_user df = Ok sel → df_filtered df sel = Ok df.
Proof.
  unfold sidebar, default_user.
  destruct (available df "year") as [ys|] eqn:Ey; [|done].
  destruct (available df "seniority") as [ss|] eqn:Es; [|done].
  destruct (available df "contract_type") as [cs|] eqn:Ec; [|done].
  destruct (available df "company_size") as [zs|] eqn:Ez; [|done].
  cbn [mbind Res_bind mret Res_ret]. intros [= <-].
  destruct (available_Ok_inv _ _ _ Ey) as [jy Hy].
  destruct (available_Ok_inv _ _ _ Es) as [js Hs].
  destruct (available_Ok_inv _ _ _ Ec) as [jc Hc].
  destruct (available_Ok_inv _ _ _ Ez) as [jz Hz].
  apply (df_filtered_all _ _ _ _ _ Hy Hs Hc Hz), Forall_forall.
  intros r Hr. unfold passes; simpl.
  repeat split; eapply available_elem_of; eauto.
Qed.

(** ** KPIs *)

(** Average 200, maximum 300, three records, most common role A. *)
Example kpis_sample_ab :
  ∃ k q, kpis sample_ab = Ok k
         ∧ avg_salary k = SFloat q ∧ (q == 200)%Q
         ∧ max_salary k = SInt 300
         ∧ total_records k = 3
         ∧ most_common_role k = CStr "A".
Proof. eexists _, _. repeat split; reflexivity. Qed.

(** C3: on an empty filtered table the four KPIs are 0, 0, 0 and the empty
    string; no column is read, so nothing is raised and no NaN appears. *)
Theorem kpis_empty (view : DataFrame) :
  empty view = true →
  kpis view = Ok {| avg_salary := SInt 0; max_salary := SInt 0;
                    total_records := 0; most_common_role := CStr EmptyString |}.
Proof. intros H. unfold kpis. by rewrite H. Qed.

Lemma kpis_empty_witness :
  df_filtered sample_df sample_sel_absent = Ok sample_view_empty
  ∧ kpis sample_view_empty =
      Ok {| avg_salary := SInt 0; max_salary := SInt 0;
            total_records := 0; most_common_role := CStr EmptyString |}.
Proof.
  split; [reflexivity|]. apply (kpis_empty sample_view_empty). reflexivity.
Defined.

(** *** The most common role *)

Lemma elem_of_dropna (x : cell) (s : Series) : x ∈ dropna s ↔ x ≠ CNaN ∧ x ∈ s.
Proof. unfold dropna. apply (list_elem_of_filter (λ y, y ≠ CNaN)). Qed.

Lemma count_dropna (x : cell) (s : Series) :
  x ≠ CNaN → count x (dropna s) = count x s.
Proof.
  intros Hx. unfold count, dropna. rewrite list_filter_filter.
  apply (f_equal length), list_filter_iff. intros y. split; [tauto|].
  intros ->. done.
Qed.

Lemma count_pos (x : cell) (s : Series) : x ∈ s ↔ 0 < count x s.
Proof.
  unfold count. induction s as [|y s IH]; simpl.
  - split; [by intros ?%elem_of_nil | lia].
  - rewrite filter_cons, elem_of_cons. destruct (decide (y = x)) as [->|Hne]; simpl.
    + split; [lia | by left].
    + rewrite <- IH. split; [intros [-> | ?]; done | by right].
Qed.

Lemma elem_of_modes (x : cell) (s : Series) :
  x ∈ modes s ↔
  x ∈ s ∧ x ≠ CNaN ∧ ∀ y, y ≠ CNaN → count y s ≤ count x s.
Proof.
  unfold modes. rewrite list_elem_of_filter, elem_of_unique, elem_of_dropna.
  split.
  - intros (Hmax & Hx & Hin). repeat split; try done.
    intros y Hy. rewrite <- (count_dropna x), <- (count_dropna y), Hmax by done.
    destruct (decide (y ∈ dropna s)) as [Hyin|Hyout].
    + apply max_list_elem_of_le, list_elem_of_fmap.
      exists y. by rewrite elem_of_unique.
    + rewrite count_pos in Hyout. lia.
  - intros (Hin & Hx & Hmax). repeat split; try done.
    assert (x ∈ unique (dropna s)) as Hxu
      by by rewrite elem_of_unique, elem_of_dropna.
    set (ns := (λ y, count y (dropna s)) <$> unique (dropna s)).
    assert (count x (dropna s) ∈ ns) as Hxn
      by (apply list_elem_of_fmap; by exists x).
    apply Nat.le_antisymm; [by apply max_list_elem_of_le|].
    assert (max_list ns ∈ ns) as Hm.
    { apply max_list_elem_of. intros Hnil. rewrite Hnil in Hxn.
      by apply elem_of_nil in Hxn. }
    apply list_elem_of_fmap in Hm as (y & Hy1 & Hy).
    apply elem_of_unique, elem_of_dropna in Hy as [Hy _].
    rewrite Hy1, !count_dropna by done. by apply Hmax.
Qed.

Lemma modes_nonempty (s : Series) (x : cell) :
  x ∈ s → x ≠ CNaN → modes s ≠ [].
Proof.
  intros Hin Hx. unfold modes.
  set (v := dropna s). set (ns := (λ y, count y v) <$> unique v).
  assert (max_list ns ∈ ns) as Hm.
  { apply max_list_elem_of. intros Hnil%fmap_nil_inv.
    assert (x ∈ unique v) as Hxu
      by (subst v; by rewrite elem_of_unique, elem_of_dropna).
    rewrite Hnil in Hxu. by apply elem_of_nil in Hxu. }
  apply list_elem_of_fmap in Hm as (y & Hy1 & Hy).
  intros Hnil.
  assert (y ∈ filter (λ x0, count x0 v = max_list ns) (unique v)) as Hyf
    by by rewrite list_elem_of_filter.
  rewrite Hnil in Hyf. by apply elem_of_nil in Hyf.
Qed.

(** On a text column the modes can be compared, and [mode()] sorts them. *)
Lemma series_mode_text (s : Series) :
  Forall text s → series_mode s = merge_sort cell_le (modes s).
Proof.
  intros Htext. unfold series_mode, py_sorted.
  assert (forallb is_str (modes s) = true) as ->; [|done].
  apply Is_true_true, forallb_True, Forall_forall.
  intros x (Hin & Hx & _)%elem_of_modes.
  rewrite Forall_forall in Htext. specialize (Htext x Hin).
  by destruct x.
Qed.

(** The first element of a sorted list is below all others. *)
Lemma merge_sort_head_least (l l' : list cell) (r : cell) :
  merge_sort cell_le l = r :: l' → ∀ y, y ∈ l → cell_le r y.
Proof.
  intros Hs y Hy.
  pose proof (StronglySorted_merge_sort cell_le l) as Hsorted.
  rewrite <- (elem_of_merge_sort cell_le) in Hy. rewrite Hs in Hy, Hsorted.
  apply StronglySorted_inv in Hsorted as [_ Hall].
  apply elem_of_cons in Hy as [->|Hy].
  - destruct (total cell_le r r); done.
  - rewrite Forall_forall in Hall. by apply Hall.
Qed.

Lemma mode0_text (s : Series) (x : cell) :
  Forall text s → x ∈ s → x ≠ CNaN →
  ∃ r, item0 (series_mode s) = Ok r
       ∧ r ∈ modes s
       ∧ ∀ y, y ∈ modes s → cell_le r y.
Proof.
  intros Htext Hin Hx. rewrite (series_mode_text _ Htext).
  destruct (merge_sort cell_le (modes s)) as [|r l'] eqn:E.
  - apply (f_equal length) in E. rewrite length_merge_sort in E.
    apply nil_length_inv in E. by destruct (modes_nonempty s x Hin Hx).
  - exists r. split; [done|]. split.
    + rewrite <- (elem_of_merge_sort cell_le), E. by left.
    + by eapply merge_sort_head_least.
Qed.

(** C4, as the script has it: on a filtered table that is not empty, whose
    usd column is numeric and whose role column is text with at least one
    role present, the KPI is a role of highest frequency, and among the roles
    of that frequency it is the least in string order. *)
Theorem most_common_role_least_mode (view : DataFrame) (usd role : Series) :
  empty view = false →
  getitem view "usd" = Ok usd → has_str usd = false →
  getitem view "role" = Ok role → Forall text role →
  (∃ x, x ∈ role ∧ x ≠ CNaN) →
  ∃ k, kpis view = Ok k
       ∧ most_common_role k ∈ role
       ∧ most_common_role k ≠ CNaN
       ∧ (∀ y, y ≠ CNaN → count y role ≤ count (most_common_role k) role)
       ∧ (∀ y, y ≠ CNaN → count y role = count (most_common_role k) role →
               cell_le (most_common_role k) y).
Proof.
  intros Hne Husd Hnum Hrole Htext (x & Hin & Hx).
  destruct (mode0_text role x Htext Hin Hx) as (r & Hr & Hmode & Hleast).
  assert (∃ mx, series_max usd = Ok mx) as [mx Hmx].
  { unfold series_max. rewrite Hnum. destruct (ints usd); eauto. }
  unfold kpis, series_mean. rewrite Hne, Husd, Hrole. cbn [negb mbind Res_bind].
  rewrite Hnum, Hmx, Hr. cbn [mbind Res_bind mret Res_ret].
  eexists. split; [done|]. simpl.
  apply elem_of_modes in Hmode as Hr'. destruct Hr' as (Hrin & Hrx & Hmax).
  repeat split; try done.
  intros y Hy Hcount. apply Hleast, elem_of_modes. repeat split; try done.
  - apply count_pos. rewrite Hcount. by apply count_pos.
  - intros z Hz. rewrite Hcount. by apply Hmax.
Qed.

Lemma most_common_role_least_mode_witness :
  ∃ k, kpis sample_tie = Ok k
       ∧ most_common_role k ∈ [CStr "Data Engineer"; CStr "Analyst"]
       ∧ most_common_role k ≠ CNaN
       ∧ (∀ y, y ≠ CNaN →
               count y [CStr "Data Engineer"; CStr "Analyst"]
               ≤ count (most_common_role k) [CStr "Data Engineer"; CStr "Analyst"])
       ∧ (∀ y, y ≠ CNaN →
               count y [CStr "Data Engineer"; CStr "Analyst"]
               = count (most_common_role k) [CStr "Data Engineer"; CStr "Analyst"] →
               cell_le (most_common_role k) y).
Proof.
  apply (most_common_role_least_mode sample_tie [CInt 100; CInt 200]
           [CStr "Data Engineer"; CStr "Analyst"]); try reflexivity.
  - repeat constructor.
  - exists (CStr "Analyst"). split; [|done].
    apply (bool_decide_unpack _). by vm_compute.
Defined.

(** C4 as stated fails: with "Data Engineer" in the first row and "Analyst"
    in the second, each once, the KPI is "Analyst". *)
Lemma most_common_role_not_first :
  ∃ k role, kpis sample_tie = Ok k
            ∧ getitem sample_tie "role" = Ok role
            ∧ most_common_role k = CStr "Analyst"
            ∧ ¬ first_among_ties role (most_common_role k).
Proof.
  eexists _, _. split; [reflexivity|]. split; [reflexivity|]. split; [reflexivity|].
  simpl. intros H.
  specialize (H (CStr "Data Engineer") 1 0 eq_refl eq_refl eq_refl). lia.
Qed.

(** ** Grouped means *)

Lemma mean_leb_total (a b : option Q) : mean_leb a b ∨ mean_leb b a.
Proof.
  destruct a as [x|], b as [y|]; simpl; try (by left); try (by right).
  rewrite !Is_true_true, !Qle_bool_iff.
  destruct (Qlt_le_dec x y) as [?%Qlt_le_weak|?]; [by left | by right].
Qed.

Lemma mean_leb_trans (a b c : option Q) :
  mean_leb a b → mean_leb b c → mean_leb a c.
Proof.
  destruct a as [x|], b as [y|], c as [z|]; simpl; try done.
  rewrite !Is_true_true, !Qle_bool_iff. apply Qle_trans.
Qed.

Global Instance asc_total : Total asc.
Proof. intros p q. apply mean_leb_total. Qed.

Global Instance asc_trans : Transitive asc.
Proof. intros p q r. apply mean_leb_trans. Qed.

Global Instance desc_total : Total desc.
Proof.
  intros [? [x|]] [? [y|]]; unfold desc; simpl; try (by left); try (by right).
  rewrite !Is_true_true, !Qle_bool_iff.
  destruct (Qlt_le_dec x y) as [?%Qlt_le_weak|?]; [by right | by left].
Qed.

Global Instance desc_trans : Transitive desc.
Proof.
  intros [? [x|]] [? [y|]] [? [z|]]; unfold desc; simpl; try done.
  rewrite !Is_true_true, !Qle_bool_iff. intros ? ?. by eapply Qle_trans.
Qed.

Lemma fst_fmap_pair {A B} (f : A → B) (l : list A) :
  ((λ x, (x, f x)) <$> l).*1 = l.
Proof. induction l as [|x l IH]; [done|]. simpl. by f_equal. Qed.


Lemma groupby_mean_Ok (df : DataFrame) (key val : string) (k v : Series) :
  getitem df key = Ok k → getitem df val = Ok v → has_str v = false →
  groupby_mean df key val =
    Ok ((λ g, (g, mean_of (group_values k v g)))
          <$> merge_sort cell_le (unique (dropna k))).
Proof.
  intros Hk Hv Hnum. unfold groupby_mean.
  rewrite Hk, Hv. cbn [mbind Res_bind]. by rewrite Hnum.
Qed.

Lemma has_str_false (v : Series) (t : string) :
  has_str v = false → CStr t ∉ v.
Proof.
  unfold has_str. induction v as [|x v IH]; simpl.
  - intros _. apply not_elem_of_nil.
  - intros [Hx Hv]%orb_false_iff. apply not_elem_of_cons. split; [|by apply IH].
    intros <-. done.
Qed.


(** *** Top ten roles *)


Lemma elem_of_top (n : nat) (g : list (cell * option Q)) (p : cell * option Q) :
  p ∈ sort_values (nlargest n g) ↔ p ∈ take n (stable_sort desc g).
Proof. unfold sort_values, nlargest. apply elem_of_stable_sort. Qed.

(** An entry kept by [nlargest] ranks at least as high as one left out. *)
Lemma nlargest_dominates (n : nat) (g : list (cell * option Q))
    (p q : cell * option Q) :
  p ∈ sort_values (nlargest n g) → q ∈ g → q ∉ sort_values (nlargest n g) →
  desc p q.
Proof.
  rewrite !elem_of_top. intros Hp Hq Hout.
  pose proof (StronglySorted_stable_sort desc g) as Hsorted.
  rewrite <- (elem_of_stable_sort desc) in Hq.
  rewrite <- (take_drop n (stable_sort desc g)) in Hsorted, Hq.
  apply elem_of_app in Hq as [?|Hdrop]; [done|].
  exact (StronglySorted_app_1_elem_of desc _ _ _ _ Hsorted Hp Hdrop).
Qed.





(** ** The country chart *)

Lemma df_ds_Ok (view : DataFrame) (j : nat) :
  col_index view "role" = Ok j →
  df_ds view =
    Ok {| columns := columns view;
          rows := filter (λ r, field j r = CStr "Data Scientist") (rows view) |}.
Proof.
  intros Hj. unfold df_ds. rewrite (getitem_Ok _ _ _ Hj).
  cbn [mbind Res_bind mret Res_ret]. unfold getitem_mask. do 2 f_equal.
  assert ((λ x, bool_decide (x = CStr "Data Scientist")) <$> (field j <$> rows view)
          = (λ r, bool_decide (field j r = CStr "Data Scientist")) <$> rows view)
    as -> by by rewrite <- list_fmap_compose.
  rewrite select_rows_fmap.
  apply list_filter_iff. intros r. by rewrite bool_decide_spec.
Qed.

Lemma filter_none {A} (P : A → Prop) `{∀ x, Decision (P x)} (l : list A) :
  Forall (λ x, ¬ P x) l → filter P l = [].
Proof.
  induction 1 as [|x l Hx _ IH]; [done|].
  by rewrite filter_cons, decide_False.
Qed.

(** C6, as the script has it: when the role column holds no "Data Scientist",
    the country chart shows the note "No Data Scientist records in the
    current filter." if the filtered table has rows, and the warning "No data
    available for countries." if it has none; the note is not a warning. *)
Theorem map_region_no_records (view : DataFrame) (role : Series) :
  getitem view "role" = Ok role →
  CStr "Data Scientist" ∉ role →
  map_region view =
    Ok (if empty view then Warning "No data available for countries."
        else Info "No Data Scientist records in the current filter.")
  ∧ ∀ msg, @Info (list (cell * option Q))
             "No Data Scientist records in the current filter." ≠ Warning msg.
Proof.
  intros Hrole Hno. split; [|done].
  unfold map_region. destruct (empty view) eqn:Hempty; [done|].
  destruct (getitem_Ok_inv _ _ _ Hrole) as (j & Hj & ->).
  rewrite (df_ds_Ok _ _ Hj). cbn [negb mbind Res_bind mret Res_ret].
  rewrite filter_none; [done|].
  apply Forall_forall. intros r Hr Heq. apply Hno. rewrite <- Heq.
  by apply list_elem_of_fmap_2.
Qed.

Lemma map_region_no_records_witness :
  map_region sample_view_2024 =
    Ok (Info "No Data Scientist records in the current filter.")
  ∧ ∀ msg, @Info (list (cell * option Q))
             "No Data Scientist records in the current filter." ≠ Warning msg.
Proof.
  apply (map_region_no_records sample_view_2024
           [CStr "Data Engineer"; CStr "Analyst"]); [reflexivity|].
  apply (bool_decide_unpack _). by vm_compute.
Defined.

(** C6 as stated fails: on a filtered table with no rows the subset of Data
    Scientist rows is empty, and the chart shows the warning, not the note. *)
Lemma map_region_empty_view_warns :
  ¬ ∀ view ds, df_ds view = Ok ds → empty ds = true →
               map_region view =
                 Ok (Info "No Data Scientist records in the current filter.").
Proof.
  intros H.
  specialize (H sample_view_empty sample_view_empty eq_refl eq_refl).
  discriminate H.
Qed.

(** ** Missing columns *)

(** Two source names are never renamed to the same canonical name. *)
Lemma COL_MAP_inj (c1 c2 t : string) :
  COL_MAP !! c1 = Some t → COL_MAP !! c2 = Some t → c1 = c2.
Proof.
  intros H1%COL_MAP_lookup H2%COL_MAP_lookup.
  cases_of H1; injection H1 as -> ->; cases_of H2; by injection H2.
Qed.

(** Without the source column and without a column already carrying the
    canonical name, the normalised table has no column of that name. *)
Lemma normalize_lacks (raw : DataFrame) (src canon : string) :
  COL_MAP !! src = Some canon →
  src ∉ columns raw → canon ∉ columns raw →
  canon ∉ columns (normalize raw).
Proof.
  intros Hmap Hsrc Hcanon Hin. rewrite columns_normalize in Hin.
  apply list_elem_of_fmap in Hin as (c & Hc & Hin).
  unfold rename_col in Hc. destruct (COL_MAP !! c) as [t|] eqn:E.
  - simpl in Hc. subst t.
    by rewrite (COL_MAP_inj _ _ _ E Hmap) in Hin.
  - simpl in Hc. by subst c.
Qed.

(** After the renaming no column is called "residencia_iso3". *)
Lemma normalize_no_source_iso (raw : DataFrame) :
  "residencia_iso3" ∉ columns (normalize raw).
Proof.
  intros Hin. rewrite columns_normalize in Hin.
  apply list_elem_of_fmap in Hin as (c & Hc & _).
  unfold rename_col in Hc. destruct (COL_MAP !! c) as [t|] eqn:E.
  - simpl in Hc. subst t. apply COL_MAP_lookup in E.
    cases_of E; discriminate E.
  - simpl in Hc. subst c. by vm_compute in E.
Qed.

Lemma df_ds_columns (view ds : DataFrame) :
  df_ds view = Ok ds → columns ds = columns view.
Proof.
  unfold df_ds. destruct (getitem view "role"); [|done]. by intros [= <-].
Qed.

Lemma available_KeyError (df : DataFrame) (name : string) :
  name ∉ columns df → available df name = Err (KeyError name).
Proof. intros H. unfold available. by rewrite (getitem_KeyError _ _ H). Qed.

Lemma groupby_mean_KeyError (df : DataFrame) (key val : string) :
  key ∉ columns df → groupby_mean df key val = Err (KeyError key).
Proof. intros H. unfold groupby_mean. by rewrite (getitem_KeyError _ _ H). Qed.

Lemma iso_col_fallback (ds : DataFrame) :
  "country_iso3" ∉ columns ds → iso_col ds = "residencia_iso3".
Proof. intros H. unfold iso_col. by rewrite bool_decide_eq_false_2. Qed.

(** The country chart on a filtered table that has Data Scientist rows. *)
Lemma map_region_chart (view ds : DataFrame) :
  empty view = false → df_ds view = Ok ds → empty ds = false →
  map_region view = (g ← groupby_mean ds (iso_col ds) "usd"; mret (Chart g)).
Proof.
  intros Hv Hds Hne. unfold map_region. rewrite Hv, Hds.
  cbn [negb mbind Res_bind]. by rewrite Hne.
Qed.

(** C7, as the script has it: when the source table has neither the source
    column nor a column already carrying its canonical name, every [df[canon]]
    on the normalised table or on a filtered table raises [KeyError(canon)].
    For a filter dimension the filter fails for every selection and the script
    stops without a page.  The KPIs read usd and role, and the work model
    chart reads work_model, only on a filtered table with rows, and fail
    there.  The country chart, when it has Data Scientist rows to show and no
    country_iso3, asks for "residencia_iso3" and raises the [KeyError] of that
    name. *)
Theorem missing_column_KeyError (raw view : DataFrame) (src canon : string) :
  COL_MAP !! src = Some canon →
  src ∉ columns raw → canon ∉ columns raw →
  columns view = columns (normalize raw) →
  getitem view canon = Err (KeyError canon)
  ∧ (canon ∈ ["year"; "seniority"; "contract_type"; "company_size"] →
     (∀ sel, ∃ e, df_filtered view sel = Err e)
     ∧ ∀ user, ∃ e, app raw user = Err e)
  ∧ (canon ∈ ["usd"; "role"] → empty view = false → ∃ e, kpis view = Err e)
  ∧ (canon = "work_model" → empty view = false →
     pie_region view = Err (KeyError "work_model"))
  ∧ (canon = "country_iso3" → empty view = false →
     ∀ ds, df_ds view = Ok ds → empty ds = false →
           map_region view = Err (KeyError "residencia_iso3")).
Proof.
  intros Hmap Hsrc Hcanon Hcols.
  pose proof (normalize_lacks _ _ _ Hmap Hsrc Hcanon) as Hlack.
  assert (getitem view canon = Err (KeyError canon)) as Hget
    by (apply getitem_KeyError; by rewrite Hcols).
  split; [done|]. split; [|split; [|split]].
  - intros Hdim. split.
    + intros sel. unfold df_filtered.
      destruct (getitem view "year") eqn:E1; [|by eauto].
      destruct (getitem view "seniority") eqn:E2; [|by eauto].
      destruct (getitem view "contract_type") eqn:E3; [|by eauto].
      destruct (getitem view "company_size") eqn:E4; [|by eauto].
      cases_of Hdim; subst canon; congruence.
    + intros user. pose proof (available_KeyError _ _ Hlack) as Hav.
      unfold app, sidebar.
      destruct (available (normalize raw) "year") eqn:E1; [|by eauto].
      destruct (available (normalize raw) "seniority") eqn:E2; [|by eauto].
      destruct (available (normalize raw) "contract_type") eqn:E3; [|by eauto].
      destruct (available (normalize raw) "company_size") eqn:E4; [|by eauto].
      cases_of Hdim; subst canon; congruence.
  - intros Hk Hne. unfold kpis. rewrite Hne. cbn [negb].
    destruct (getitem view "usd") as [usd|] eqn:E1; [|by eauto].
    cbn [mbind Res_bind].
    destruct (series_mean usd); [|by eauto]. cbn [mbind Res_bind].
    destruct (series_max usd); [|by eauto]. cbn [mbind Res_bind].
    destruct (getitem view "role") eqn:E2; [|by eauto].
    cases_of Hk; subst canon; congruence.
  - intros -> Hne. unfold pie_region. by rewrite Hne, Hget.
  - intros -> Hne ds Hds Hdne.
    rewrite (map_region_chart _ _ Hne Hds Hdne).
    pose proof (df_ds_columns _ _ Hds) as Hdc.
    rewrite iso_col_fallback by (by rewrite Hdc, Hcols).
    rewrite groupby_mean_KeyError; [done|].
    rewrite Hdc, Hcols. apply normalize_no_source_iso.
Qed.

Lemma missing_column_KeyError_witness :
  getitem (normalize sample_raw_no_year) "year" = Err (KeyError "year")
  ∧ (∀ sel, ∃ e, df_filtered (normalize sample_raw_no_year) sel = Err e)
  ∧ ∀ user, ∃ e, app sample_raw_no_year user = Err e.
Proof.
  destruct (missing_column_KeyError sample_raw_no_year
              (normalize sample_raw_no_year) "ano" "year") as (H1 & H2 & _).
  - reflexivity.
  - apply (bool_decide_unpack _). by vm_compute.
  - apply (bool_decide_unpack _). by vm_compute.
  - reflexivity.
  - split; [exact H1|]. apply H2. apply (bool_decide_unpack _). by vm_compute.
Defined.

(** C7 as stated fails: the sample without its job title column has neither
    "cargo" nor "role", yet with the year filter cleared the script runs to
    the end and shows an empty most common role. *)
Lemma missing_role_empty_view_silent :
  ¬ ∀ raw user src canon,
      COL_MAP !! src = Some canon → src ∉ columns raw → canon ∉ columns raw →
      canon ∈ ["year"; "seniority"; "contract_type"; "company_size";
               "usd"; "role"; "work_model"; "country_iso3"] →
      ∃ e, app raw user = Err e.
Proof.
  intros H.
  destruct (H sample_raw_no_role user_no_year "cargo" "role") as [e He].
  - reflexivity.
  - apply (bool_decide_unpack _). by vm_compute.
  - apply (bool_decide_unpack _). by vm_compute.
  - apply (bool_decide_unpack _). by vm_compute.
  - vm_compute in He. discriminate He.
Qed.

(** What the page shows in that run. *)
Example app_no_role_cleared_year :
  ∃ d, app sample_raw_no_role user_no_year = Ok d
       ∧ most_common_role (metrics d) = CStr EmptyString
       ∧ roles_chart d = Warning "No data available for roles.".
Proof. eexists. split; [reflexivity|]. done. Qed.

(** A source table with English headers has no "ano" column and runs. *)
Example app_english_headers :
  ("ano" ∉ columns sample_df) ∧ (∃ d, app sample_df default_user = Ok d).
Proof.
  split.
  - apply (bool_decide_unpack _). by vm_compute.
  - eexists. reflexivity.
Qed.

(** C10, as the script has it: on a filtered table with Data Scientist rows
    and no country_iso3 column the country chart groups by the name
    "residencia_iso3".  With a column of that name (and a numeric usd
    column) it shows the mean of usd per value of it; without one it raises
    [KeyError("residencia_iso3")], which is the case of every table that
    went through the script's renaming. *)
Theorem map_region_fallback (view ds : DataFrame) :
  empty view = false → df_ds view = Ok ds → empty ds = false →
  "country_iso3" ∉ columns view →
  iso_col ds = "residencia_iso3"
  ∧ map_region view = (g ← groupby_mean ds "residencia_iso3" "usd"; mret (Chart g))
  ∧ (∀ k v, getitem ds "residencia_iso3" = Ok k →
            getitem ds "usd" = Ok v → has_str v = false →
            map_region view =
              Ok (Chart ((λ g, (g, mean_of (group_values k v g)))
                           <$> merge_sort cell_le (unique (dropna k)))))
  ∧ ("residencia_iso3" ∉ columns view →
     map_region view = Err (KeyError "residencia_iso3"))
  ∧ (∀ raw, columns view = columns (normalize raw) →
            map_region view = Err (KeyError "residencia_iso3")).
Proof.
  intros Hne Hds Hdne Hno.
  pose proof (df_ds_columns _ _ Hds) as Hdc.
  assert (iso_col ds = "residencia_iso3") as Hiso
    by (apply iso_col_fallback; by rewrite Hdc).
  assert (map_region view
          = (g ← groupby_mean ds "residencia_iso3" "usd"; mret (Chart g))) as Hmap
    by (by rewrite (map_region_chart _ _ Hne Hds Hdne), Hiso).
  assert ("residencia_iso3" ∉ columns view →
          map_region view = Err (KeyError "residencia_iso3")) as Hfail.
  { intros Hlack. rewrite Hmap, groupby_mean_KeyError; [done | by rewrite Hdc]. }
  repeat split; try done.
  - intros k v Hk Hv Hnum. by rewrite Hmap, (groupby_mean_Ok _ _ _ _ _ Hk Hv Hnum).
  - intros raw Hcols. apply Hfail. rewrite Hcols. apply normalize_no_source_iso.
Qed.

Lemma map_region_fallback_witness :
  iso_col sample_view_iso_pt = "residencia_iso3"
  ∧ map_region sample_view_iso_pt = Ok (Chart [(CStr "USA", Some (100 # 1))]).
Proof.
  destruct (map_region_fallback sample_view_iso_pt
              {| columns := columns sample_view_iso_pt;
                 rows := take 1 (rows sample_view_iso_pt) |})
    as (H1 & H2 & _).
  - reflexivity.
  - reflexivity.
  - reflexivity.
  - apply (bool_decide_unpack _). by vm_compute.
  - split; [reflexivity|]. rewrite H2. reflexivity.
Defined.

(** C10 as stated fails: a source table without ISO codes, normalised, has
    Data Scientist rows and no country_iso3 column, and the country chart
    raises. *)
Lemma map_region_fallback_raises :
  ¬ ∀ view ds,
      empty view = false → df_ds view = Ok ds → empty ds = false →
      "country_iso3" ∉ columns view →
      ∃ g, map_region view = Ok (Chart g).
Proof.
  intros H.
  destruct (H (normalize sample_raw_no_iso)
              {| columns := columns (normalize sample_raw_no_iso);
                 rows := take 1 (rows (normalize sample_raw_no_iso)) |})
    as [g Hg].
  - reflexivity.
  - reflexivity.
  - reflexivity.
  - apply (bool_decide_unpack _). by vm_compute.
  - vm_compute in Hg. discriminate Hg.
Qed.

(** The whole script on that table. *)
Example app_no_iso :
  app sample_raw_no_iso default_user = Err (KeyError "residencia_iso3").
Proof. reflexivity. Qed.

(** * Further properties of the script *)

(** ** Normalisation *)

Lemma VALUE_MAP_target_canonical (k t : string) :
  VALUE_MAP !! k = Some t → t ∈ canonical_values.
Proof.
  intros H%VALUE_MAP_lookup.
  cases_of H; injection H as -> ->; apply (bool_decide_unpack _); by vm_compute.
Qed.

(** X2: what lines 29 and 47 leave behind.  In the normalised table the only
    column names that are still keys of [COL_MAP] are the ones mapped to
    themselves, and no cell holds a source code. *)
Theorem normalize_output_canonical (raw : DataFrame) :
  (∀ c t, c ∈ columns (normalize raw) → COL_MAP !! c = Some t → t = c)
  ∧ Forall (Forall (λ x, ¬ source_code x)) (rows (normalize raw)).
Proof.
  split.
  - intros c t Hin Hc. rewrite columns_normalize in Hin.
    apply list_elem_of_fmap in Hin as (c0 & -> & _).
    rewrite <- (rename_col_idemp c0). unfold rename_col at 1. by rewrite Hc.
  - rewrite rows_normalize. apply Forall_fmap, Forall_forall. intros r _.
    apply Forall_fmap, Forall_forall. intros x _.
    destruct x as [z|s|]; try (by intros []).
    destruct (VALUE_MAP !! s) as [t|] eqn:E.
    + change ((λ x, ¬ source_code x) ∘ replace_cell VALUE_MAP) with
        (λ x, ¬ source_code (replace_cell VALUE_MAP x)). cbv beta.
      rewrite (replace_cell_key _ _ _ E). intros [_ Hno].
      by apply Hno, (VALUE_MAP_target_canonical s).
    + change ((λ x, ¬ source_code x) ∘ replace_cell VALUE_MAP) with
        (λ x, ¬ source_code (replace_cell VALUE_MAP x)). cbv beta.
      rewrite (replace_cell_other _ _ E). intros [[t Ht] _]. congruence.
Qed.

(** ** Sidebar options *)

(** A column of one kind: strings only, or no string at all. *)
Lemma py_sorted_Ok_iff (l : list cell) :
  (∃ l', py_sorted l = Ok l') ↔ Forall is_str l ∨ Forall (λ c, ¬ is_str c) l.
Proof.
  unfold py_sorted.
  destruct (forallb is_str l) eqn:E1.
  { split; [intros _; left; by apply forallb_True, Is_true_true | by eauto]. }
  destruct (forallb (λ c, negb (is_str c)) l) eqn:E2; simpl.
  - split; [intros _; right | by eauto].
    apply Is_true_true, forallb_True in E2.
    eapply Forall_impl; [exact E2|]. intros x Hx. by apply negb_True.
  - split; [by intros [? ?]|]. intros [H|H].
    + apply forallb_True, Is_true_true in H. congruence.
    + assert (Forall (λ c, negb (is_str c)) l) as H'.
      { eapply Forall_impl; [exact H|]. intros x Hx. by apply negb_True. }
      apply forallb_True, Is_true_true in H'. congruence.
Qed.

Lemma Forall_unique (P : cell → Prop) (s : Series) :
  Forall P (unique s) ↔ Forall P s.
Proof.
  rewrite !Forall_forall. split; intros H x Hx; apply H; by apply elem_of_unique.
Qed.

(** X3: the options of a sidebar widget (lines 52, 55, 58, 61).  For a column
    of one kind, strings only or no string at all, in which no value is
    missing, the options exist, are in ascending order, hold no value twice
    and hold exactly the values of the column. *)
Theorem available_sorted (df : DataFrame) (name : string) (s : Series) :
  getitem df name = Ok s →
  Forall is_str s ∨ Forall (λ c, ¬ is_str c) s →
  CNaN ∉ s →
  ∃ l, available df name = Ok l
       ∧ StronglySorted cell_le l
       ∧ NoDup l
       ∧ ∀ x, x ∈ l ↔ x ∈ s.
Proof.
  intros Hs Hkind _. unfold available. rewrite Hs. cbn [mbind Res_bind].
  destruct (proj2 (py_sorted_Ok_iff (unique s))) as [l Hl].
  { by rewrite !Forall_unique. }
  exists l. split; [done|].
  pose proof (py_sorted_Permutation _ _ Hl) as Hperm.
  unfold py_sorted in Hl. destruct (_ || _); [|done]. injection Hl as <-.
  split; [apply StronglySorted_merge_sort; apply _|].
  split.
  - rewrite Hperm. apply NoDup_unique.
  - intros x. by rewrite Hperm, elem_of_unique.
Qed.

Lemma available_sorted_witness :
  ∃ l, available sample_df "seniority" = Ok l
       ∧ StronglySorted cell_le l
       ∧ NoDup l
       ∧ ∀ x, x ∈ l ↔ x ∈ [CStr "senior"; CStr "entry level"; CStr "mid-level"].
Proof.
  apply (available_sorted sample_df "seniority"); [reflexivity| |].
  - left. apply (bool_decide_unpack _). by vm_compute.
  - apply (bool_decide_unpack _). by vm_compute.
Defined.

(** X4: a column that holds a string and also a value that is not a string,
    such as a missing value among labels, cannot be sorted: the options are
    not built and [TypeError] is raised (lines 52-61). *)
Theorem available_mixed (df : DataFrame) (name : string) (s : Series) (a : string) (x : cell) :
  getitem df name = Ok s →
  CStr a ∈ s → x ∈ s → is_str x = false →
  available df name = Err TypeError.
Proof.
  intros Hs Ha Hx Hnot. unfold available. rewrite Hs. cbn [mbind Res_bind].
  destruct (py_sorted (unique s)) as [l|e] eqn:E.
  - destruct (proj1 (py_sorted_Ok_iff (unique s))) as [H|H]; [by eauto| |].
    + rewrite Forall_unique, Forall_forall in H.
      specialize (H x Hx). by rewrite Hnot in H.
    + rewrite Forall_unique, Forall_forall in H.
      by destruct (H (CStr a) Ha).
  - unfold py_sorted in E. by destruct (_ || _); simplify_eq.
Qed.

Lemma available_mixed_witness :
  available sample_df_gap "seniority" = Err TypeError.
Proof.
  apply (available_mixed sample_df_gap "seniority"
           [CNaN; CStr "entry level"; CStr "mid-level"] "mid-level" CNaN);
    try reflexivity; apply (bool_decide_unpack _); by vm_compute.
Defined.

(** ** More on the filter *)

Lemma df_filtered_Ok_inv (df : DataFrame) (sel : Selection) (view : DataFrame) :
  df_filtered df sel = Ok view →
  ∃ jy js jc jz,
    col_index df "year" = Ok jy ∧ col_index df "seniority" = Ok js
    ∧ col_index df "contract_type" = Ok jc ∧ col_index df "company_size" = Ok jz
    ∧ view = {| columns := columns df;
                rows := filter (passes jy js jc jz sel) (rows df) |}.
Proof.
  intros H.
  destruct (col_index df "year") as [jy|] eqn:Hy;
    [|by unfold df_filtered, getitem in H; rewrite Hy in H].
  destruct (col_index df "seniority") as [js|] eqn:Hs;
    [|by unfold df_filtered, getitem in H; rewrite Hy, Hs in H].
  destruct (col_index df "contract_type") as [jc|] eqn:Hc;
    [|by unfold df_filtered, getitem in H; rewrite Hy, Hs, Hc in H].
  destruct (col_index df "company_size") as [jz|] eqn:Hz;
    [|by unfold df_filtered, getitem in H; rewrite Hy, Hs, Hc, Hz in H].
  exists jy, js, jc, jz. repeat split; try done.
  rewrite (df_filtered_Ok _ _ _ _ _ Hy Hs Hc Hz) in H. by injection H.
Qed.

Lemma filter_sublist_impl {A} (P Q : A → Prop)
    `{∀ x, Decision (P x)} `{∀ x, Decision (Q x)} (l : list A) :
  (∀ x, P x → Q x) → filter P l `sublist_of` filter Q l.
Proof.
  intros HPQ. induction l as [|x l IH]; [done|].
  rewrite !filter_cons. destruct (decide (P x)) as [HP|HP].
  - rewrite decide_True by auto. by constructor.
  - destruct (decide (Q x)); [by constructor | done].
Qed.

(** X5: an empty selection in any one dimension gives a filtered table with
    the columns of the table and no row, whatever the other three selections
    are (lines 65-70): an empty selection does not mean "no filter". *)
Theorem df_filtered_empty_selection (df : DataFrame) (sel : Selection) (jy js jc jz : nat) :
  col_index df "year" = Ok jy →
  col_index df "seniority" = Ok js →
  col_index df "contract_type" = Ok jc →
  col_index df "company_size" = Ok jz →
  sel_has_empty sel →
  df_filtered df sel = Ok {| columns := columns df; rows := [] |}.
Proof.
  intros Hy Hs Hc Hz Hempty. rewrite (df_filtered_Ok _ _ _ _ _ Hy Hs Hc Hz).
  do 2 f_equal. apply filter_none, Forall_forall.
  intros r _ (H1 & H2 & H3 & H4).
  destruct Hempty as [E|[E|[E|E]]]; rewrite E in *;
    eapply elem_of_nil; eassumption.
Qed.

Lemma df_filtered_empty_selection_witness :
  df_filtered sample_df
    {| years_selected := [CInt 2023; CInt 2024];
       seniority_selected := [];
       contracts_selected := [CStr "full time"];
       sizes_selected := [CStr "large"] |}
  = Ok {| columns := columns sample_df; rows := [] |}.
Proof.
  apply (df_filtered_empty_selection sample_df _ 0 1 2 10); try reflexivity.
  right. by left.
Defined.

(** X6: filtering a filtered table again with the same selection changes
    nothing (lines 65-70). *)
Theorem df_filtered_idemp (df : DataFrame) (sel : Selection) (view : DataFrame) :
  df_filtered df sel = Ok view → df_filtered view sel = Ok view.
Proof.
  intros (jy & js & jc & jz & Hy & Hs & Hc & Hz & ->)%df_filtered_Ok_inv.
  rewrite (df_filtered_Ok _ jy js jc jz); try done. simpl. do 2 f_equal.
  apply filter_all, Forall_forall. intros r Hr.
  by apply list_elem_of_filter in Hr as [? _].
Qed.

Lemma df_filtered_idemp_witness :
  ∃ view, df_filtered sample_df sample_sel = Ok view
          ∧ df_filtered view sample_sel = Ok view.
Proof.
  eexists. split; [reflexivity|].
  apply (df_filtered_idemp sample_df sample_sel). reflexivity.
Defined.

(** X7: filtering in two steps is filtering once with, in each dimension, the
    values selected in both steps (lines 65-70). *)
Theorem df_filtered_compose (df : DataFrame) (s1 s2 : Selection) (v1 : DataFrame) :
  df_filtered df s1 = Ok v1 →
  df_filtered v1 s2 = df_filtered df (sel_inter s1 s2).
Proof.
  intros (jy & js & jc & jz & Hy & Hs & Hc & Hz & ->)%df_filtered_Ok_inv.
  rewrite (df_filtered_Ok
             {| columns := columns df;
                rows := filter (passes jy js jc jz s1) (rows df) |}
             jy js jc jz Hy Hs Hc Hz s2).
  rewrite (df_filtered_Ok _ _ _ _ _ Hy Hs Hc Hz). simpl. do 2 f_equal.
  rewrite list_filter_filter. apply list_filter_iff. intros r.
  unfold passes, sel_inter; simpl. rewrite !list_elem_of_filter. tauto.
Qed.

Lemma df_filtered_compose_witness :
  ∃ v1, df_filtered sample_df sample_sel_all = Ok v1
        ∧ df_filtered v1 sample_sel
          = df_filtered sample_df (sel_inter sample_sel_all sample_sel).
Proof.
  eexists. split; [reflexivity|].
  apply (df_filtered_compose sample_df sample_sel_all sample_sel). reflexivity.
Defined.

(** X8: selecting more never shows less.  When one selection is included in
    another in every dimension, the rows it keeps are a sub-list of the rows
    the other keeps (lines 65-70). *)
Theorem df_filtered_mono (df : DataFrame) (s1 s2 : Selection) (v1 v2 : DataFrame) :
  df_filtered df s1 = Ok v1 → df_filtered df s2 = Ok v2 →
  sel_included s1 s2 →
  rows v1 `sublist_of` rows v2.
Proof.
  intros (jy & js & jc & jz & Hy & Hs & Hc & Hz & ->)%df_filtered_Ok_inv H2 Hinc.
  rewrite (df_filtered_Ok _ _ _ _ _ Hy Hs Hc Hz) in H2. injection H2 as <-.
  simpl. apply filter_sublist_impl. intros r (H1 & H2 & H3 & H4).
  destruct Hinc as (I1 & I2 & I3 & I4). unfold passes.
  repeat split; [by apply I1 | by apply I2 | by apply I3 | by apply I4].
Qed.

Lemma df_filtered_mono_witness :
  ∃ v1 v2, df_filtered sample_df sample_sel = Ok v1
           ∧ df_filtered sample_df sample_sel_all = Ok v2
           ∧ rows v1 `sublist_of` rows v2.
Proof.
  eexists _, _. split; [reflexivity|]. split; [reflexivity|].
  apply (df_filtered_mono sample_df sample_sel sample_sel_all); try reflexivity.
  apply (bool_decide_unpack _). by vm_compute.
Defined.

(** ** More on the KPIs *)

Lemma foldr_max_spec (z : Z) (zs : list Z) :
  foldr Z.max z zs ∈ z :: zs ∧ ∀ y, y ∈ z :: zs → (y ≤ foldr Z.max z zs)%Z.
Proof.
  induction zs as [|a zs [IHin IHle]]; simpl.
  - split; [by left|]. intros y ->%list_elem_of_singleton. lia.
  - split.
    + destruct (Z.max_spec a (foldr Z.max z zs)) as [[_ ->]|[_ ->]].
      * apply elem_of_cons in IHin as [->|?]; [by left | by do 2 right].
      * right. by left.
    + intros y Hy. apply elem_of_cons in Hy as [->|Hy].
      * specialize (IHle z (ltac:(by left))). lia.
      * apply elem_of_cons in Hy as [->|Hy]; [lia|].
        specialize (IHle y (ltac:(by right))). lia.
Qed.

Lemma ints_nonempty (s : Series) :
  s ≠ [] → has_str s = false → CNaN ∉ s → ints s ≠ [].
Proof.
  destruct s as [|x s]; [done|]. intros _ Hstr Hnan.
  destruct x as [z|t|]; [done| |].
  - by destruct (has_str_false _ t Hstr); left.
  - destruct Hnan. by left.
Qed.

(** X9: the maximum and the record count on a filtered table with rows whose
    usd column holds no missing value (lines 81-82).  When the KPI block
    succeeds, the maximum shown is one of the usd values, no usd value exceeds
    it, and the record count is the number of rows. *)
Theorem kpis_max_salary (view : DataFrame) (k : KPIs) (usd : Series) :
  empty view = false →
  kpis view = Ok k →
  getitem view "usd" = Ok usd → CNaN ∉ usd →
  ∃ m, max_salary k = SInt m
       ∧ m ∈ ints usd
       ∧ (∀ z, z ∈ ints usd → (z ≤ m)%Z)
       ∧ total_records k = length (rows view).
Proof.
  intros Hne Hk Husd Hnan. unfold kpis, series_mean, series_max in Hk.
  rewrite Hne, Husd in Hk. cbn [negb mbind Res_bind] in Hk.
  destruct (has_str usd) eqn:Hstr; [done|]. cbn [mbind Res_bind] in Hk.
  assert (usd ≠ []) as Hrows.
  { apply getitem_Ok_inv in Husd as (j & _ & ->).
    unfold empty in Hne. apply orb_false_iff in Hne as [Hne _].
    apply bool_decide_eq_false in Hne. by destruct (rows view). }
  pose proof (ints_nonempty usd Hrows Hstr Hnan) as Hints.
  destruct (ints usd) as [|z zs]; [done|].
  cbn [mbind Res_bind] in Hk.
  destruct (getitem view "role") as [role|]; [|done]. cbn [mbind Res_bind] in Hk.
  destruct (item0 (series_mode role)) as [r|]; [|done].
  cbn [mbind Res_bind mret Res_ret] in Hk. injection Hk as <-.
  destruct (foldr_max_spec z zs) as [Hin Hle].
  by exists (foldr Z.max z zs).
Qed.

Lemma kpis_max_salary_witness :
  ∃ k m, kpis sample_ab = Ok k
         ∧ max_salary k = SInt m
         ∧ m ∈ [100; 200; 300]%Z
         ∧ (∀ z, z ∈ [100; 200; 300]%Z → (z ≤ m)%Z)
         ∧ total_records k = 3.
Proof.
  exists {| avg_salary := SFloat (600 # 3); max_salary := SInt 300;
            total_records := 3; most_common_role := CStr "A" |}.
  destruct (kpis_max_salary sample_ab
              {| avg_salary := SFloat (600 # 3); max_salary := SInt 300;
                 total_records := 3; most_common_role := CStr "A" |}
              [CInt 100; CInt 200; CInt 300])
    as (m & H); [reflexivity | reflexivity | reflexivity | |].
  - apply (bool_decide_unpack _). by vm_compute.
  - exists m. split; [reflexivity | exact H].
Defined.

(** ** The page as a whole *)

Lemma col_index_Ok_columns (df : DataFrame) (name : string) (j : nat) :
  col_index df name = Ok j → columns df ≠ [].
Proof. unfold col_index. intros H E. by rewrite E in H. Qed.

Lemma app_Ok_inv (raw : DataFrame) (user : User) (d : Dashboard) :
  app raw user = Ok d →
  ∃ sel, sidebar user (normalize raw) = Ok sel
         ∧ df_filtered (normalize raw) sel = Ok (detailed_data d)
         ∧ kpis (detailed_data d) = Ok (metrics d)
         ∧ roles_region (detailed_data d) = Ok (roles_chart d)
         ∧ hist_region (detailed_data d) = Ok (salary_chart d)
         ∧ pie_region (detailed_data d) = Ok (work_model_chart d)
         ∧ map_region (detailed_data d) = Ok (country_chart d).
Proof.
  unfold app. intros H.
  destruct (sidebar user (normalize raw)) as [sel|] eqn:E0; [|done].
  cbn [mbind Res_bind] in H.
  destruct (df_filtered (normalize raw) sel) as [view|] eqn:E1; [|done].
  cbn [mbind Res_bind] in H.
  destruct (kpis view) as [k|] eqn:E2; [|done]. cbn [mbind Res_bind] in H.
  destruct (roles_region view) as [c1|] eqn:E3; [|done]. cbn [mbind Res_bind] in H.
  destruct (hist_region view) as [c2|] eqn:E4; [|done]. cbn [mbind Res_bind] in H.
  destruct (pie_region view) as [c3|] eqn:E5; [|done]. cbn [mbind Res_bind] in H.
  destruct (map_region view) as [c4|] eqn:E6; [|done].
  cbn [mbind Res_bind mret Res_ret] in H. injection H as <-.
  exists sel. simpl. by rewrite E1, E2, E3, E4, E5, E6.
Qed.

Lemma app_view_columns (raw : DataFrame) (user : User) (d : Dashboard) :
  app raw user = Ok d →
  columns (detailed_data d) = columns (normalize raw)
  ∧ columns (detailed_data d) ≠ [].
Proof.
  intros (sel & _ & Hview & _)%app_Ok_inv.
  apply df_filtered_Ok_inv in Hview as (jy & js & jc & jz & Hy & _ & _ & _ & ->).
  split; [done|]. exact (col_index_Ok_columns (normalize raw) _ _ Hy).
Qed.

(** X10: on every page the script produces, the record count of the KPI row
    is the number of rows of the detailed table under it (lines 82, 86 and
    177). *)
Theorem app_total_records (raw : DataFrame) (user : User) (d : Dashboard) :
  app raw user = Ok d →
  total_records (metrics d) = length (rows (detailed_data d)).
Proof.
  intros H. destruct (app_view_columns _ _ _ H) as [_ Hcols].
  apply app_Ok_inv in H as (sel & _ & _ & Hk & _).
  unfold kpis in Hk. destruct (empty (detailed_data d)) eqn:Hempty.
  - cbn [negb] in Hk. injection Hk as <-. simpl.
    unfold empty in Hempty. apply orb_true_iff in Hempty as [E|E].
    + apply bool_decide_eq_true in E. by rewrite E.
    + by apply bool_decide_eq_true in E.
  - cbn [negb] in Hk.
    destruct (getitem (detailed_data d) "usd") as [usd|]; [|done].
    cbn [mbind Res_bind] in Hk.
    destruct (series_mean usd); [|done]. cbn [mbind Res_bind] in Hk.
    destruct (series_max usd); [|done]. cbn [mbind Res_bind] in Hk.
    destruct (getitem (detailed_data d) "role") as [role|]; [|done].
    cbn [mbind Res_bind] in Hk.
    destruct (item0 (series_mode role)); [|done].
    cbn [mbind Res_bind mret Res_ret] in Hk. by injection Hk as <-.
Qed.

Lemma app_total_records_witness :
  ∃ d, app sample_raw user_no_year = Ok d
       ∧ total_records (metrics d) = length (rows (detailed_data d)).
Proof.
  eexists. split; [reflexivity|].
  apply (app_total_records sample_raw user_no_year). reflexivity.
Defined.

(** X11: when the filter keeps no row the script still runs to the end,
    without reading any other column: the KPIs are 0, 0, 0 and the empty
    string, each of the four chart regions shows its warning, and the
    detailed table is the empty filtered table (lines 79-87, 103-173). *)
Theorem app_empty_view (raw : DataFrame) (user : User) (sel : Selection) (view : DataFrame) :
  sidebar user (normalize raw) = Ok sel →
  df_filtered (normalize raw) sel = Ok view →
  rows view = [] →
  app raw user =
    Ok {| metrics := {| avg_salary := SInt 0; max_salary := SInt 0;
                        total_records := 0;
                        most_common_role := CStr EmptyString |};
          roles_chart := Warning "No data available for roles.";
          salary_chart := Warning "No data available for salary distribution.";
          work_model_chart := Warning "No data available for work model.";
          country_chart := Warning "No data available for countries.";
          detailed_data := view |}.
Proof.
  intros Hsel Hview Hrows. unfold app. rewrite Hsel. cbn [mbind Res_bind].
  rewrite Hview. cbn [mbind Res_bind].
  assert (empty view = true) as Hempty.
  { unfold empty. by rewrite Hrows. }
  unfold kpis, roles_region, hist_region, pie_region, map_region.
  by rewrite Hempty.
Qed.

Lemma app_empty_view_witness :
  ∃ d, app sample_raw_no_role user_no_year = Ok d
       ∧ roles_chart d = Warning "No data available for roles."
       ∧ country_chart d = Warning "No data available for countries.".
Proof.
  eexists. split.
  - eapply (app_empty_view sample_raw_no_role user_no_year); reflexivity.
  - split; reflexivity.
Defined.

(** X12: on the first render, with every widget at its default, the detailed
    table of the page is the whole normalised table, when no value is missing
    in its four filter columns (lines 52-70 and 177). *)
Theorem app_default_shows_all (raw : DataFrame) (d : Dashboard) :
  app raw default_user = Ok d →
  no_missing_filter_values (normalize raw) →
  detailed_data d = normalize raw.
Proof.
  intros (sel & Hsel & Hview & _)%app_Ok_inv _.
  rewrite (df_filtered_default _ _ Hsel) in Hview. by injection Hview.
Qed.

Lemma app_default_shows_all_witness :
  ∃ d, app sample_raw default_user = Ok d ∧ detailed_data d = normalize sample_raw.
Proof.
  eexists. split; [reflexivity|].
  apply (app_default_shows_all sample_raw); [reflexivity|].
  intros name s Hname Hs.
  cases_of Hname; subst name; vm_compute in Hs; injection Hs as <-;
    apply (bool_decide_unpack _); by vm_compute.
Defined.

(** ** More on the top roles *)

Lemma top_roles_Ok (view : DataFrame) (g : list (cell * option Q)) :
  groupby_mean view "role" "usd" = Ok g →
  top_roles view = Ok (sort_values (nlargest 10 g)).
Proof. intros H. unfold top_roles. by rewrite H. Qed.

(** X13: the ten roles kept are the ones of greatest mean (lines 105-106).
    Every role shown has a mean at least as great as the mean of every role
    left out; a role without a mean is kept only after all the others. *)
Theorem top_roles_keeps_largest (view : DataFrame) (g t : list (cell * option Q)) :
  groupby_mean view "role" "usd" = Ok g →
  top_roles view = Ok t →
  ∀ r m r' m', (r, m) ∈ t → (r', m') ∈ g → (r', m') ∉ t → mean_geb m m'.
Proof.
  intros Hg Ht r m r' m' Hin Hg' Hout.
  rewrite (top_roles_Ok _ _ Hg) in Ht. injection Ht as <-.
  exact (nlargest_dominates 10 g (r, m) (r', m') Hin Hg' Hout).
Qed.

(** Of the twelve roles of the sample, "Role C" (mean 300) is shown and
    "Role A" (mean 200) is left out. *)
Lemma top_roles_keeps_largest_witness :
  ∃ g t, groupby_mean sample_roles12 "role" "usd" = Ok g
         ∧ top_roles sample_roles12 = Ok t
         ∧ ((CStr "Role C", Some (300 # 1)) ∈ t)
         ∧ ((CStr "Role A", Some (400 # 2)) ∈ g)
         ∧ ((CStr "Role A", Some (400 # 2)) ∉ t)
         ∧ mean_geb (Some (300 # 1)) (Some (400 # 2)).
Proof.
  eexists _, _. split; [reflexivity|]. split; [reflexivity|].
  assert (∀ (x : cell * option Q) (l : list (cell * option Q)),
            bool_decide (x ∈ l) = true → x ∈ l) as Hyes
    by (intros x l; apply bool_decide_eq_true_1).
  assert (∀ (x : cell * option Q) (l : list (cell * option Q)),
            bool_decide (x ∈ l) = false → x ∉ l) as Hno
    by (intros x l; apply bool_decide_eq_false_1).
  split; [apply Hyes; by vm_compute|].
  split; [apply Hyes; by vm_compute|].
  split; [apply Hno; by vm_compute|].
  eapply (top_roles_keeps_largest sample_roles12 _ _ eq_refl eq_refl
            (CStr "Role C") (Some (300 # 1)) (CStr "Role A") (Some (400 # 2))).
  - apply Hyes. by vm_compute.
  - apply Hyes. by vm_compute.
  - apply Hno. by vm_compute.
Defined.

(** X14: how many roles are shown (lines 105-106).  The top-roles table has
    one entry per role, no role twice, and its length is the number of
    distinct roles of the filtered table when that is at most 10, and 10
    otherwise. *)
Theorem top_roles_length (view : DataFrame) (role usd : Series) (t : list (cell * option Q)) :
  getitem view "role" = Ok role →
  getitem view "usd" = Ok usd →
  top_roles view = Ok t →
  NoDup t.*1 ∧ length t = 10 `min` length (unique (dropna role)).
Proof.
  intros Hrole Husd Ht. unfold top_roles, groupby_mean in Ht.
  rewrite Hrole, Husd in Ht. cbn [mbind Res_bind] in Ht.
  destruct (has_str usd); [done|]. cbn [mbind Res_bind mret Res_ret] in Ht.
  injection Ht as <-.
  set (g := (λ g, (g, mean_of (group_values role usd g)))
              <$> merge_sort cell_le (unique (dropna role))).
  split.
  - unfold sort_values, nlargest. rewrite (stable_sort_Permutation asc).
    eapply sublist_NoDup; [|apply fmap_sublist, sublist_take].
    rewrite (stable_sort_Permutation desc). unfold g.
    rewrite fst_fmap_pair, (merge_sort_Permutation cell_le). apply NoDup_unique.
  - unfold sort_values, nlargest, g.
    by rewrite length_stable_sort, length_take, length_stable_sort, length_fmap,
      length_merge_sort.
Qed.

Lemma top_roles_length_witness :
  ∃ t, top_roles sample_df = Ok t ∧ NoDup t.*1 ∧ length t = 3.
Proof.
  eexists. split; [reflexivity|].
  apply (top_roles_length sample_df
           [CStr "Data Scientist"; CStr "Data Engineer"; CStr "Analyst"]
           [CInt 100; CInt 200; CInt 300]); reflexivity.
Defined.

(** ** The work model chart *)

Global Instance by_count_desc_total : Total by_count_desc.
Proof. intros p q. unfold by_count_desc. lia. Qed.

Global Instance by_count_desc_trans : Transitive by_count_desc.
Proof. intros p q r. unfold by_count_desc. lia. Qed.

Lemma length_filter_or {A} (P Q : A → Prop)
    `{∀ x, Decision (P x)} `{∀ x, Decision (Q x)} (l : list A) :
  (∀ x, P x → Q x → False) →
  length (filter (λ x, P x ∨ Q x) l) = length (filter P l) + length (filter Q l).
Proof.
  intros Hdisj. induction l as [|x l IH]; [done|].
  rewrite !filter_cons.
  destruct (decide (P x)) as [HP|HP], (decide (Q x)) as [HQ|HQ].
  - by destruct (Hdisj x).
  - rewrite decide_True by (by left). simpl. lia.
  - rewrite decide_True by (by right). simpl. lia.
  - rewrite decide_False by tauto. done.
Qed.

(** The numbers of rows of distinct values add up to the rows that hold one
    of them. *)
Lemma sum_count_NoDup (u v : Series) :
  NoDup u →
  sum_list ((λ x, count x v) <$> u) = length (filter (λ y, y ∈ u) v).
Proof.
  induction 1 as [|a u Ha _ IH].
  - rewrite filter_none; [done|]. apply Forall_forall. intros y _ Hy.
    by apply elem_of_nil in Hy.
  - rewrite fmap_cons.
    change (count a v + sum_list ((λ x, count x v) <$> u)
            = length (filter (λ y, y ∈ a :: u) v)).
    rewrite IH. unfold count.
    rewrite <- (length_filter_or (λ y, y = a) (λ y, y ∈ u)).
    + f_equal. apply list_filter_iff. intros y. rewrite elem_of_cons. tauto.
    + intros y -> Hy. done.
Qed.

Lemma sum_count_unique (v : Series) :
  sum_list ((λ x, count x v) <$> unique v) = length v.
Proof.
  rewrite sum_count_NoDup by apply NoDup_unique.
  rewrite filter_all; [done|]. apply Forall_forall. intros y Hy.
  by apply elem_of_unique.
Qed.

(** X15: the work model chart of a filtered table with rows (lines 138-152).
    It has one slice per work model present, no work model twice, each with
    the number of rows of that work model, the largest slices first; the
    slices add up to the number of rows whose work model is not missing. *)
Theorem pie_region_counts (view : DataFrame) (wm : Series) :
  empty view = false →
  getitem view "work_model" = Ok wm →
  ∃ c, pie_region view = Ok (Chart c)
       ∧ NoDup c.*1
       ∧ StronglySorted by_count_desc c
       ∧ (∀ x n, (x, n) ∈ c ↔ x ∈ wm ∧ x ≠ CNaN ∧ n = count x wm)
       ∧ sum_list c.*2 = length (dropna wm).
Proof.
  intros Hne Hwm. exists (value_counts wm). split.
  { unfold pie_region. by rewrite Hne, Hwm. }
  unfold value_counts.
  set (l := (λ x, (x, count x (dropna wm))) <$> unique (dropna wm)).
  split.
  { rewrite (stable_sort_Permutation by_count_desc). unfold l.
    rewrite fst_fmap_pair. apply NoDup_unique. }
  split; [apply StronglySorted_stable_sort; apply _|].
  split.
  - intros x n. rewrite (elem_of_stable_sort by_count_desc). unfold l.
    rewrite list_elem_of_fmap. split.
    + intros (y & [= -> ->] & Hy).
      apply elem_of_unique, elem_of_dropna in Hy as [Hy Hin].
      by rewrite count_dropna.
    + intros (Hin & Hx & ->). exists x. rewrite count_dropna by done.
      split; [done|]. by rewrite elem_of_unique, elem_of_dropna.
  - rewrite (stable_sort_Permutation by_count_desc). unfold l.
    rewrite <- list_fmap_compose.
    exact (sum_count_unique (dropna wm)).
Qed.

Lemma pie_region_counts_witness :
  ∃ c, pie_region sample_df = Ok (Chart c)
       ∧ NoDup c.*1
       ∧ StronglySorted by_count_desc c
       ∧ (∀ x n, (x, n) ∈ c ↔
                 x ∈ [CStr "remote"; CStr "onsite"; CStr "hybrid"]
                 ∧ x ≠ CNaN
                 ∧ n = count x [CStr "remote"; CStr "onsite"; CStr "hybrid"])
       ∧ sum_list c.*2 = 3.
Proof.
  apply (pie_region_counts sample_df [CStr "remote"; CStr "onsite"; CStr "hybrid"]);
    reflexivity.
Defined.

(** ** More on the country chart *)

Lemma col_index_Ok_elem_of (df : DataFrame) (name : string) (j : nat) :
  col_index df name = Ok j → name ∈ columns df.
Proof.
  intros H. destruct (decide (name ∈ columns df)) as [|Hno]; [done|].
  apply col_index_KeyError in Hno. congruence.
Qed.

Lemma getitem_Ok_elem_of (df : DataFrame) (name : string) (s : Series) :
  getitem df name = Ok s → name ∈ columns df.
Proof.
  intros (j & Hj & _)%getitem_Ok_inv. by eapply col_index_Ok_elem_of.
Qed.

(** X16: what the country chart plots (lines 155-169).  On a filtered table
    with Data Scientist rows, a country_iso3 column and a numeric usd column,
    the chart has one entry per country code present among the Data Scientist
    rows, in ascending order of code and no code twice, each with the mean of
    usd over the Data Scientist rows of that country; rows of other roles do
    not enter. *)
Theorem map_region_by_country (view : DataFrame) (jr : nat) (k v : Series) :
  col_index view "role" = Ok jr →
  rows (data_scientists jr view) ≠ [] →
  getitem (data_scientists jr view) "country_iso3" = Ok k →
  getitem (data_scientists jr view) "usd" = Ok v →
  has_str v = false →
  ∃ g, map_region view = Ok (Chart g)
       ∧ NoDup g.*1
       ∧ StronglySorted cell_le g.*1
       ∧ ∀ c m, (c, m) ∈ g ↔
                c ∈ k ∧ c ≠ CNaN ∧ m = mean_of (group_values k v c).
Proof.
  intros Hjr Hrows Hk Hv Hnum.
  pose proof (df_ds_Ok _ _ Hjr) as Hds. fold (data_scientists jr view) in Hds.
  assert (columns view ≠ []) as Hcols by by eapply col_index_Ok_columns.
  assert (empty view = false) as Hne.
  { unfold empty. apply orb_false_iff. split; apply bool_decide_eq_false; [|done].
    intros E. apply Hrows. unfold data_scientists; simpl. by rewrite E. }
  assert (empty (data_scientists jr view) = false) as Hdne.
  { unfold empty. apply orb_false_iff. by split; apply bool_decide_eq_false. }
  eexists. split.
  { rewrite (map_region_chart _ _ Hne Hds Hdne).
    assert (iso_col (data_scientists jr view) = "country_iso3") as ->.
    { unfold iso_col. rewrite bool_decide_eq_true_2; [done|].
      by eapply getitem_Ok_elem_of. }
    by rewrite (groupby_mean_Ok _ _ _ _ _ Hk Hv Hnum). }
  rewrite fst_fmap_pair. split.
  { rewrite (merge_sort_Permutation cell_le). apply NoDup_unique. }
  split; [apply StronglySorted_merge_sort; apply _|].
  intros c m. rewrite list_elem_of_fmap. split.
  - intros (y & [= -> ->] & Hy).
    rewrite (elem_of_merge_sort cell_le), elem_of_unique, elem_of_dropna in Hy.
    tauto.
  - intros (Hin & Hc & ->). exists c. split; [done|].
    by rewrite (elem_of_merge_sort cell_le), elem_of_unique, elem_of_dropna.
Qed.

Lemma map_region_by_country_witness :
  ∃ g, map_region sample_df = Ok (Chart g)
       ∧ NoDup g.*1
       ∧ StronglySorted cell_le g.*1
       ∧ ∀ c m, (c, m) ∈ g ↔
                c ∈ [CStr "USA"] ∧ c ≠ CNaN
                ∧ m = mean_of (group_values [CStr "USA"] [CInt 100] c).
Proof.
  apply (map_region_by_country sample_df 3 [CStr "USA"] [CInt 100]);
    try reflexivity.
  by vm_compute.
Defined.

(** ** A column under both of its names *)

Lemma elem_of_positions (name : string) (cols : list string) (k x : nat) :
  x ∈ positions name cols k ↔ ∃ i, x = k + i ∧ cols !! i = Some name.
Proof.
  revert k. induction cols as [|c cols IH]; intros k; simpl.
  - split; [by intros ?%elem_of_nil | by intros (i & _ & ?)].
  - destruct (decide (c = name)) as [->|Hne].
    + rewrite elem_of_cons, IH. split.
      * intros [->|(i & -> & Hi)]; [exists 0 | exists (S i)]; split; try done; lia.
      * intros ([|i] & -> & Hi); [left; lia|].
        right. exists i. split; [lia | done].
    + rewrite IH. split.
      * intros (i & -> & Hi). exists (S i). split; [lia | done].
      * intros ([|i] & -> & Hi); [simpl in Hi; congruence|].
        exists i. split; [lia | done].
Qed.

Lemma col_index_duplicate (df : DataFrame) (name : string) (i1 i2 : nat) :
  columns df !! i1 = Some name → columns df !! i2 = Some name → i1 ≠ i2 →
  col_index df name = Err (NotASeries name).
Proof.
  intros H1 H2 Hne. unfold col_index.
  assert (i1 ∈ positions name (columns df) 0) as P1
    by (apply elem_of_positions; by exists i1).
  assert (i2 ∈ positions name (columns df) 0) as P2
    by (apply elem_of_positions; by exists i2).
  destruct (positions name (columns df) 0) as [|j [|j' l]]; [|exfalso|done].
  - by apply elem_of_nil in P1.
  - apply list_elem_of_singleton in P1, P2. congruence.
Qed.

(** X17: a source table that has a column under its source name and another
    already under the canonical name (lines 29 and 52-70).  After the
    renaming two columns carry the canonical name, [df[name]] is then not a
    single column, and for a filter dimension the script stops without a
    page. *)
Theorem rename_duplicate_column (raw : DataFrame) (src canon : string) :
  COL_MAP !! src = Some canon → src ≠ canon →
  src ∈ columns raw → canon ∈ columns raw →
  getitem (normalize raw) canon = Err (NotASeries canon)
  ∧ (canon ∈ ["year"; "seniority"; "contract_type"; "company_size"] →
     ∀ user, ∃ e, app raw user = Err e).
Proof.
  intros Hmap Hne Hsrc Hcanon.
  apply list_elem_of_lookup in Hsrc as [i1 H1], Hcanon as [i2 H2].
  assert (col_index (normalize raw) canon = Err (NotASeries canon)) as Hidx.
  { apply (col_index_duplicate _ _ i1 i2).
    - rewrite columns_normalize, list_lookup_fmap, H1. simpl.
      unfold rename_col. by rewrite Hmap.
    - rewrite columns_normalize, list_lookup_fmap, H2. simpl.
      f_equal. by eapply rename_col_target.
    - intros ->. congruence. }
  assert (getitem (normalize raw) canon = Err (NotASeries canon)) as Hget
    by (unfold getitem; by rewrite Hidx).
  split; [done|]. intros Hdim user.
  assert (available (normalize raw) canon = Err (NotASeries canon)) as Hav
    by (unfold available; by rewrite Hget).
  unfold app, sidebar.
  destruct (available (normalize raw) "year") eqn:E1; [|by eauto].
  destruct (available (normalize raw) "seniority") eqn:E2; [|by eauto].
  destruct (available (normalize raw) "contract_type") eqn:E3; [|by eauto].
  destruct (available (normalize raw) "company_size") eqn:E4; [|by eauto].
  cases_of Hdim; subst canon; congruence.
Qed.

Lemma rename_duplicate_column_witness :
  getitem (normalize sample_raw_two_years) "year" = Err (NotASeries "year")
  ∧ ∀ user, ∃ e, app sample_raw_two_years user = Err e.
Proof.
  destruct (rename_duplicate_column sample_raw_two_years "ano" "year")
    as [H1 H2]; [reflexivity | done | | |].
  - apply (bool_decide_unpack _). by vm_compute.
  - apply (bool_decide_unpack _). by vm_compute.
  - split; [exact H1|]. apply H2. apply (bool_decide_unpack _). by vm_compute.
Defined.

(** ** KPIs on columns of missing values *)

Lemma all_missing_ints (s : Series) :
  Forall (λ x, x = CNaN) s → has_str s = false ∧ ints s = [].
Proof.
  induction 1 as [|x s -> _ [IH1 IH2]]; [done|].
  split; [exact IH1 | exact IH2].
Qed.

(** X18: on a filtered table with rows in which every usd value is missing,
    the KPI block, when it succeeds, shows NaN for the average and for the
    maximum, not the 0 of the empty case (lines 80-81). *)
Theorem kpis_usd_missing (view : DataFrame) (k : KPIs) (usd : Series) :
  empty view = false →
  kpis view = Ok k →
  getitem view "usd" = Ok usd → Forall (λ x, x = CNaN) usd →
  avg_salary k = SNaN ∧ max_salary k = SNaN.
Proof.
  intros Hne Hk Husd [Hstr Hints]%all_missing_ints.
  unfold kpis, series_mean, series_max in Hk.
  rewrite Hne, Husd in Hk. cbn [negb mbind Res_bind] in Hk.
  rewrite Hstr, Hints in Hk. cbn [mbind Res_bind] in Hk.
  destruct (getitem view "role") as [role|]; [|done]. cbn [mbind Res_bind] in Hk.
  destruct (item0 (series_mode role)) as [r|]; [|done].
  cbn [mbind Res_bind mret Res_ret] in Hk. by injection Hk as <-.
Qed.

Lemma kpis_usd_missing_witness :
  ∃ k, kpis sample_usd_missing = Ok k
       ∧ avg_salary k = SNaN ∧ max_salary k = SNaN.
Proof.
  exists {| avg_salary := SNaN; max_salary := SNaN; total_records := 2;
            most_common_role := CStr "A" |}.
  split; [reflexivity|].
  apply (kpis_usd_missing sample_usd_missing _ [CNaN; CNaN]); try reflexivity.
  by repeat constructor.
Defined.

Lemma all_missing_modes (s : Series) :
  Forall (λ x, x = CNaN) s → series_mode s = [].
Proof.
  intros H. assert (dropna s = []) as Hdrop.
  { unfold dropna. apply filter_none. eapply Forall_impl; [exact H|].
    intros x -> Hx. done. }
  unfold series_mode, modes. by rewrite Hdrop.
Qed.

(** X19: on a filtered table with rows, a numeric usd column and a role
    column in which every value is missing, there is no most common role to
    take: [mode()] is empty, [[0]] raises and the KPI block fails (line
    83). *)
Theorem kpis_role_missing (view : DataFrame) (usd role : Series) :
  empty view = false →
  getitem view "usd" = Ok usd → has_str usd = false →
  getitem view "role" = Ok role → Forall (λ x, x = CNaN) role →
  kpis view = Err (KeyError "0").
Proof.
  intros Hne Husd Hnum Hrole Hall.
  assert (∃ mx, series_max usd = Ok mx) as [mx Hmx].
  { unfold series_max. rewrite Hnum. destruct (ints usd); eauto. }
  unfold kpis, series_mean. rewrite Hne, Husd, Hrole. cbn [negb mbind Res_bind].
  rewrite Hnum, Hmx. cbn [mbind Res_bind]. by rewrite (all_missing_modes _ Hall).
Qed.

Lemma kpis_role_missing_witness :
  kpis sample_role_missing = Err (KeyError "0").
Proof.
  apply (kpis_role_missing sample_role_missing [CInt 100; CInt 200] [CNaN; CNaN]);
    try reflexivity.
  by repeat constructor.
Defined.
